(** * derby-react: the Racer state bridge and the Derby mount adapter

    A shallow embedding of [src/racer.ts] ([useRacerState]) and of
    [src/derby.ts] ([renderReactComponent]).  Both functions are thin glue
    over three external libraries (Racer, React, react-dom) and the Derby
    component class; the parts of those libraries the two functions call are
    modelled here as small executable state machines, closures are
    defunctionalised, and every library call threads an explicit world. *)

From Stdlib Require Import Ascii String.
From stdpp Require Import base gmap strings list.

Set Warnings "-register-all".

Local Open Scope string_scope.
Local Open Scope Z_scope.
Local Open Scope list_scope.

(** ** JSON values held by a Racer model *)

Inductive value : Type :=
| VUndefined
| VNull
| VBool (b : bool)
| VNum (n : Z)
| VStr (s : string)
| VObj (fields : list (string * value)).

(** [v == null] in JavaScript: true of [null] and [undefined] only. *)
Definition nullish (v : value) : bool :=
  match v with
  | VUndefined | VNull => true
  | _ => false
  end.

(** [a ?? b] *)
Definition coalesce (a b : value) : value :=
  if nullish a then b else a.

(** ** Paths

    A Racer path is a dot-separated string; the store works on its segments. *)

Fixpoint split_dots (cur s : string) : list string :=
  match s with
  | EmptyString => [cur]
  | String c rest =>
      if Ascii.eqb c "."%char
      then cur :: split_dots EmptyString rest
      else split_dots (String.append cur (String c EmptyString)) rest
  end.

Definition segments (p : string) : list string :=
  match p with
  | EmptyString => []
  | _ => split_dots EmptyString p
  end.

(** [beneath p q]: the path [q] is [p] itself or lies below [p]. *)
Fixpoint beneath (p q : list string) : bool :=
  match p, q with
  | [], _ => true
  | _ :: _, [] => false
  | a :: p', b :: q' => if decide (a = b) then beneath p' q' else false
  end.

(** Two paths are disjoint when neither lies at or below the other. *)
Definition disjoint_paths (p q : list string) : bool :=
  negb (beneath p q) && negb (beneath q p).

(** ** The document tree of one root model *)

Fixpoint field_get (k : string) (fs : list (string * value)) : value :=
  match fs with
  | [] => VUndefined
  | (k', v) :: fs' => if decide (k = k') then v else field_get k fs'
  end.

Fixpoint field_set (k : string) (v : value) (fs : list (string * value))
  : list (string * value) :=
  match fs with
  | [] => [(k, v)]
  | (k', v') :: fs' =>
      if decide (k = k') then (k, v) :: fs' else (k', v') :: field_set k v fs'
  end.

Fixpoint field_del (k : string) (fs : list (string * value))
  : list (string * value) :=
  match fs with
  | [] => []
  | (k', v') :: fs' =>
      if decide (k = k') then fs' else (k', v') :: field_del k fs'
  end.

Definition fields_of (node : value) : list (string * value) :=
  match node with
  | VObj fs => fs
  | _ => []
  end.

(** Modelled from the spec: the store is "an external hierarchical key-value
    store" read by path; a path that leaves the tree reads as absent. *)
Fixpoint lookup_path (segs : list string) (node : value) : value :=
  match segs with
  | [] => node
  | k :: ks => lookup_path ks (field_get k (fields_of node))
  end.

(** Modelled from the spec: "direct overwrite" of the value at a path; the
    objects implied by the path are created on the way down. *)
Fixpoint set_path (segs : list string) (v node : value) : value :=
  match segs with
  | [] => v
  | k :: ks =>
      let fs := fields_of node in
      VObj (field_set k (set_path ks v (field_get k fs)) fs)
  end.

(** Removing the value at a path; nothing is created on the way down. *)
Fixpoint del_path (segs : list string) (node : value) : value :=
  match segs with
  | [] => VUndefined
  | k :: ks =>
      match node with
      | VObj fs =>
          match ks with
          | [] => VObj (field_del k fs)
          | _ :: _ =>
              if nullish (field_get k fs) then node
              else VObj (field_set k (del_path ks (field_get k fs)) fs)
          end
      | _ => node
      end
  end.

(** ** Scoped models, listeners and closures *)

(** A scoped model handle ([Model<T>]).  [root] is the identity of the root
    model object, [path] what [path()] returns, [_eventContext] the private
    field the hook reads, and [ident] the identity of the handle object
    itself: two handles may agree on the first three and still be different
    objects. *)
Record Model : Type := mkModel {
  root : nat;
  path : string;
  _eventContext : option nat;
  ident : nat;
}.

(** The dispatcher returned by [useState], bound to the state cell of one
    component instance. *)
Inductive SetState : Type :=
| SetStateValue (fiber : nat).

(** Listener functions.  [OnModelEvent setStateValue listenerModel] is the
    arrow function of racer.ts:47-49; [Foreign] stands for a listener some
    other code registered. *)
Inductive ListenerFn : Type :=
| OnModelEvent (setStateValue : SetState) (listenerModel : Model)
| Foreign (tag : nat).

(** An entry of a root model's ['all'] listener registry, as created by
    [model.on('all', '**', ...)]: it fires for every mutation at or beneath
    [l_segments].  The event context of the registering handle is kept as a
    tag; it plays no part in the delivery of events. *)
Record Listener : Type := mkListener {
  l_id : nat;
  l_root : nat;
  l_segments : list string;
  l_context : option nat;
  l_fn : ListenerFn;
}.

(** The effect callback of racer.ts:45-53 with the variables it captures. *)
Inductive Effect : Type :=
| Subscribe (rootModel : nat) (modelPath : string)
            (modelEventContext : option nat) (setStateValue : SetState).

(** The cleanup closure of racer.ts:50-52. *)
Inductive Destroy : Type :=
| Unsubscribe (listenerModel : Model) (listener : nat).

(** The setter returned by the hook (racer.ts:56-58). *)
Inductive Setter : Type :=
| SetModelValue (scopedModel : Model).

(** The dependency array [[rootModel, modelPath, modelEventContext]]. *)
Definition Deps : Type := (nat * string * option nat)%type.

(** Calls made on the Racer API, in program order. *)
Inductive Call : Type :=
| CallGetDeepCopy (m : Model)
| CallSetNull (m : Model) (v : value)
| CallSet (m : Model) (v : value)
| CallDel (m : Model)
| CallOn (m : Model) (listener : nat)
| CallRemoveListener (m : Model) (listener : nat).

(** ** Component instances

    What React keeps for one call of the hook in a mounted component: the
    [useState] cell and the [useEffect] cell.  A component that calls the
    hook twice has two of these. *)

Record Fiber : Type := mkFiber {
  memoizedState : option value;     (* the [useState] cell *)
  scheduled : bool;                 (* a re-render was requested *)
  dispatches : nat;                 (* calls of the state dispatcher so far *)
  effectDeps : option Deps;         (* dependencies of the last render *)
  effectPending : option Effect;    (* effect waiting for the commit *)
  effectDestroy : option Destroy;   (* cleanup of the effect that ran last *)
}.

Definition fresh_fiber : Fiber :=
  mkFiber None false 0%nat None None None.

(** ** The world *)

Record World : Type := mkWorld {
  stores : gmap nat value;
  listeners : list Listener;
  next_listener : nat;
  next_ident : nat;
  fibers : gmap nat Fiber;
  calls : list Call;
}.

Definition empty_world : World :=
  mkWorld ∅ [] 0%nat 0%nat ∅ [].

Definition with_stores (f : gmap nat value → gmap nat value) (w : World) : World :=
  mkWorld (f (stores w)) (listeners w) (next_listener w) (next_ident w)
          (fibers w) (calls w).

Definition with_listeners (f : list Listener → list Listener) (w : World) : World :=
  mkWorld (stores w) (f (listeners w)) (next_listener w) (next_ident w)
          (fibers w) (calls w).

Definition with_fibers (f : gmap nat Fiber → gmap nat Fiber) (w : World) : World :=
  mkWorld (stores w) (listeners w) (next_listener w) (next_ident w)
          (f (fibers w)) (calls w).

Definition log (c : Call) (w : World) : World :=
  mkWorld (stores w) (listeners w) (next_listener w) (next_ident w)
          (fibers w) (calls w ++ [c]).

Definition root_data (w : World) (r : nat) : value :=
  default VUndefined (stores w !! r).

Definition fiber_of (w : World) (f : nat) : Fiber :=
  default fresh_fiber (fibers w !! f).

(** The value the store holds at the path of a scoped model. *)
Definition value_at (w : World) (m : Model) : value :=
  lookup_path (segments (path m)) (root_data w (root m)).

(** ** The world monad *)

Definition M (A : Type) : Type := World → A * World.

Definition ret {A} (a : A) : M A := λ w, (a, w).

Definition bind {A B} (c : M A) (k : A → M B) : M B :=
  λ w, let '(a, w') := c w in k a w'.

Notation "x <- c ;; k" := (bind c (λ x, k))
  (at level 100, c at level 99, k at level 200, right associativity).
Notation "c ;;; k" := (bind c (λ _, k))
  (at level 100, k at level 200, right associativity).

Definition modify (f : World → World) : M unit := λ w, (tt, f w).

Definition exec {A} (c : M A) (w : World) : World := snd (c w).
Definition eval {A} (c : M A) (w : World) : A := fst (c w).

Fixpoint for_each {A} (l : list A) (body : A → M unit) : M unit :=
  match l with
  | [] => ret tt
  | a :: l' => body a ;;; for_each l' body
  end.

(** ** React: the state cell and its dispatcher *)

Definition set_memoizedState (v : value) (fb : Fiber) : Fiber :=
  mkFiber (Some v) (scheduled fb) (dispatches fb)
          (effectDeps fb) (effectPending fb) (effectDestroy fb).

Definition request_render (v : value) (fb : Fiber) : Fiber :=
  mkFiber (Some v) true (S (dispatches fb))
          (effectDeps fb) (effectPending fb) (effectDestroy fb).

Definition schedule_effect (create : Effect) (deps : nat * string * option nat)
    (fb : Fiber) : Fiber :=
  mkFiber (memoizedState fb) (scheduled fb) (dispatches fb)
          (Some deps) (Some create) (effectDestroy fb).

Definition effect_done (d : Destroy) (fb : Fiber) : Fiber :=
  mkFiber (memoizedState fb) (scheduled fb) (dispatches fb)
          (effectDeps fb) None (Some d).

Definition render_started (fb : Fiber) : Fiber :=
  mkFiber (memoizedState fb) false (dispatches fb)
          (effectDeps fb) (effectPending fb) (effectDestroy fb).

(** Calling the dispatcher of a mounted component stores the value in its
    state cell and requests a re-render; on an unmounted one it does
    nothing. *)
Definition dispatch (d : SetState) (v : value) : M unit :=
  let 'SetStateValue f := d in
  modify (λ w,
    match fibers w !! f with
    | Some fb => with_fibers <[f := request_render v fb]> w
    | None => w
    end).

(** [useState(initialState)]: the first render of a component instance
    initialises the cell, later renders return the cell as it is. *)
Definition useState (f : nat) (initialState : value) : M (value * SetState) :=
  λ w,
    match memoizedState (fiber_of w f) with
    | Some s => ((s, SetStateValue f), w)
    | None =>
        ((initialState, SetStateValue f),
         with_fibers <[f := set_memoizedState initialState (fiber_of w f)]> w)
    end.

(** Modelled from the spec: "a dependency-gated effect/subscription-lifecycle
    primitive".  [useEffect(create, deps)] schedules the effect on the first
    render and whenever an element of the dependency array differs from the
    previous render's. *)
Definition useEffect (f : nat) (create : Effect) (deps : nat * string * option nat)
  : M unit :=
  modify (λ w,
    let fb := fiber_of w f in
    match effectDeps fb with
    | Some prev =>
        if decide (prev = deps) then w
        else with_fibers <[f := schedule_effect create deps fb]> w
    | None => with_fibers <[f := schedule_effect create deps fb]> w
    end).

(** ** The Racer model API *)

(** [model.getDeepCopy()].  Values are immutable here, so the copy is the
    value read. *)
Definition getDeepCopy (m : Model) : M value :=
  λ w, (value_at w m, log (CallGetDeepCopy m) w).

Definition run_listener (l : Listener) : M unit :=
  match l_fn l with
  | OnModelEvent setStateValue listenerModel =>
      v <- getDeepCopy listenerModel ;;
      dispatch setStateValue v
  | Foreign _ => ret tt
  end.

Definition listens (r : nat) (segs : list string) (l : Listener) : bool :=
  (l_root l =? r)%nat && beneath (l_segments l) segs.

(** Modelled from the spec: a subscription receives "all mutation events at
    or beneath the bound path"; notifications are delivered synchronously,
    in registration order. *)
Definition emitMutation (r : nat) (segs : list string) : M unit :=
  λ w, for_each (List.filter (listens r segs) (listeners w)) run_listener w.

Definition write (r : nat) (segs : list string) (v : value) : M unit :=
  modify (λ w, with_stores <[r := set_path segs v (root_data w r)]> w).

Definition erase (r : nat) (segs : list string) : M unit :=
  modify (λ w, with_stores <[r := del_path segs (root_data w r)]> w).

(** [model.set(value)] *)
Definition set (m : Model) (v : value) : M unit :=
  modify (log (CallSet m v)) ;;;
  write (root m) (segments (path m)) v ;;;
  emitMutation (root m) (segments (path m)).

(** Modelled from the spec: [model.setNull(value)] is "a null-coalescing
    set", "a write operation that only applies if the target currently holds
    no value". *)
Definition setNull (m : Model) (v : value) : M unit :=
  modify (log (CallSetNull m v)) ;;;
  λ w,
    if nullish (value_at w m)
    then (write (root m) (segments (path m)) v ;;;
          emitMutation (root m) (segments (path m))) w
    else (tt, w).

(** [model.del()] *)
Definition del (m : Model) : M unit :=
  modify (log (CallDel m)) ;;;
  erase (root m) (segments (path m)) ;;;
  emitMutation (root m) (segments (path m)).

(** [rootModel.at(subpath)]: a new handle on the root model. *)
Definition model_at (rootModel : nat) (subpath : string) : M Model :=
  λ w, (mkModel rootModel subpath None (next_ident w),
        mkWorld (stores w) (listeners w) (next_listener w) (S (next_ident w))
                (fibers w) (calls w)).

(** [model.eventContext(id)]: a new handle that differs in its context. *)
Definition eventContext (m : Model) (id : option nat) : M Model :=
  λ w, (mkModel (root m) (path m) id (next_ident w),
        mkWorld (stores w) (listeners w) (next_listener w) (S (next_ident w))
                (fibers w) (calls w)).

(** Modelled from the spec: the store offers "a subscription mechanism
    supporting wildcard/recursive path matching beneath a given path,
    returning a disposable listener handle".  This is
    [model.on('all', '**', { useEventObjects: true }, fn)]: it registers the
    function and returns the listener, which [removeListener] accepts. *)
Definition on (m : Model) (fn : ListenerFn) : M nat :=
  λ w,
    let id := next_listener w in
    (id,
     log (CallOn m id)
       (mkWorld (stores w)
                (listeners w ++
                   [mkListener id (root m) (segments (path m)) (_eventContext m) fn])
                (S id) (next_ident w) (fibers w) (calls w))).

Definition is_listener (r id : nat) (l : Listener) : bool :=
  (l_root l =? r)%nat && (l_id l =? id)%nat.

(** Modelled from the spec: disposing of a listener handle,
    [model.removeListener('all', listener)], takes that listener out of the
    registry of the model's root. *)
Definition removeListener (m : Model) (listener : nat) : M unit :=
  modify (log (CallRemoveListener m listener)) ;;;
  modify (with_listeners
            (List.filter (λ l, negb (is_listener (root m) listener l)))).

(** ** [useRacerState] (racer.ts:27-60) *)

(** The effect body, racer.ts:46-52. *)
Definition run_effect (e : Effect) : M Destroy :=
  let 'Subscribe rootModel modelPath modelEventContext setStateValue := e in
  atModel <- model_at rootModel modelPath ;;
  listenerModel <- eventContext atModel modelEventContext ;;
  listener <- on listenerModel (OnModelEvent setStateValue listenerModel) ;;
  ret (Unsubscribe listenerModel listener).

Definition run_destroy (d : Destroy) : M unit :=
  let 'Unsubscribe listenerModel listener := d in
  removeListener listenerModel listener.

(** racer.ts:56-58 *)
Definition setModelValue (s : Setter) (newValue : value) : M unit :=
  let 'SetModelValue scopedModel := s in
  set scopedModel newValue.

(** The hook.  [fiber] is the component instance React is rendering, which
    [useState] and [useEffect] find by themselves in the source; a default
    value that is not supplied is [VUndefined]. *)
Definition useRacerState (fiber : nat) (scopedModel : Model) (defaultValue : value)
  : M (value * Setter) :=
  stored <- getDeepCopy scopedModel ;;
  let modelValue := coalesce stored defaultValue in
  (if negb (nullish defaultValue)
   then setNull scopedModel defaultValue
   else ret tt) ;;;
  st <- useState fiber modelValue ;;
  let setStateValue := snd st in
  let rootModel := root scopedModel in
  let modelPath := path scopedModel in
  let modelEventContext := _eventContext scopedModel in
  useEffect fiber
    (Subscribe rootModel modelPath modelEventContext setStateValue)
    (rootModel, modelPath, modelEventContext) ;;;
  ret (modelValue, SetModelValue scopedModel).

(** ** The life of a component instance that calls the hook *)

(** React runs the effects a render scheduled once the render is committed:
    first the cleanup of the effect it replaces, then the new effect. *)
Definition commitEffects (f : nat) : M unit :=
  λ w,
    match effectPending (fiber_of w f) with
    | None => (tt, w)
    | Some create =>
        (match effectDestroy (fiber_of w f) with
         | Some d => run_destroy d
         | None => ret tt
         end ;;;
         d' <- run_effect create ;;
         modify (λ w', with_fibers <[f := effect_done d' (fiber_of w' f)]> w')) w
    end.

(** Clearing the re-render request at the start of a render pass. *)
Definition begin_render (f : nat) : M unit :=
  modify (λ w,
    match fibers w !! f with
    | Some fb => with_fibers <[f := render_started fb]> w
    | None => w
    end).

(** One render pass of the component: the hook body, then the commit. *)
Definition render (f : nat) (scopedModel : Model) (defaultValue : value)
  : M (value * Setter) :=
  begin_render f ;;;
  r <- useRacerState f scopedModel defaultValue ;;
  commitEffects f ;;;
  ret r.

(** Discarding the component: the cleanup of its effect runs. *)
Definition unmount (f : nat) : M unit :=
  λ w,
    (match effectDestroy (fiber_of w f) with
     | Some d => run_destroy d
     | None => ret tt
     end ;;;
     modify (with_fibers (delete f))) w.


(** ** Auxiliary notions used by the statements *)

(** [keeps proj c]: running [c] leaves the component [proj] of the world as
    it was. *)
Definition keeps {A B} (proj : World → B) (c : M A) : Prop :=
  ∀ w, proj (exec c w) = proj w.

Definition overwritten (m : Model) (v : value) (w : World) : gmap nat value :=
  <[root m := set_path (segments (path m)) v (root_data w (root m))]> (stores w).

(** A store in which [_page.message] is already set. *)
Definition message : Model := mkModel 0 "_page.message" None 0.

Definition world_with_message : World :=
  exec (set message (VStr "Initial message")) empty_world.

(** The component of the test suite: [_page.counter] with default [1]. *)
Definition counter : Model := mkModel 0 "_page.counter" None 0.

(** First render, then the value is deleted through the model, then the
    component renders again. *)
Definition counter_mounted : World :=
  exec (render 0 counter (VNum 1)) empty_world.

Definition counter_deleted : World :=
  exec (del counter) counter_mounted.

Definition counter_rerendered : World :=
  exec (useRacerState 0 counter (VNum 1)) counter_deleted.


(** The reads the notified listeners perform (racer.ts:48), in order. *)
Definition listener_reads (ls : list Listener) : list Call :=
  flat_map (λ l, match l_fn l with
                 | OnModelEvent _ listenerModel => [CallGetDeepCopy listenerModel]
                 | Foreign _ => []
                 end) ls.

(** The listeners a mutation made through the handle [m] notifies. *)
Definition notified (m : Model) (w : World) : list Listener :=
  List.filter (listens (root m) (segments (path m))) (listeners w).

(** The listener registry together with the two allocation counters. *)
Definition registry (w : World) : list Listener * nat * nat :=
  (listeners w, next_listener w, next_ident w).

(** The effect cell of a component instance. *)
Definition effect_cells (f : nat) (w : World)
  : option (nat * string * option nat) * option Effect * option Destroy :=
  let fb := fiber_of w f in (effectDeps fb, effectPending fb, effectDestroy fb).

(** The three comparison keys the hook derives from a handle
    (racer.ts:42-44). *)
Definition keys_of (m : Model) : nat * string * option nat :=
  (root m, path m, _eventContext m).

(** The handle the effect builds with [rootModel.at(path).eventContext(ctx)]
    in a world whose next free object identity is [next_ident w]. *)
Definition listenerModel_of (m : Model) (w : World) : Model :=
  mkModel (root m) (path m) (_eventContext m) (S (next_ident w)).

(** The registry entry the effect adds for component [f] bound to [m]. *)
Definition subscription_of (f : nat) (m : Model) (w : World) : Listener :=
  mkListener (next_listener w) (root m) (segments (path m)) (_eventContext m)
             (OnModelEvent (SetStateValue f) (listenerModel_of m w)).

(** The registry without the listener a cleanup closure removes. *)
Definition without (d : Destroy) (ls : list Listener) : list Listener :=
  let 'Unsubscribe listenerModel listener := d in
  List.filter (λ l, negb (is_listener (root listenerModel) listener l)) ls.

(** The hook up to and including its [useState] call (racer.ts:31-36). *)
Definition hook_prefix (fiber : nat) (scopedModel : Model) (defaultValue : value)
  : M (value * SetState) :=
  stored <- getDeepCopy scopedModel ;;
  let modelValue := coalesce stored defaultValue in
  (if negb (nullish defaultValue)
   then setNull scopedModel defaultValue
   else ret tt) ;;;
  useState fiber modelValue.

(** The effect the hook hands to [useEffect] for component [f] and handle
    [m]. *)
Definition effect_of (f : nat) (m : Model) : Effect :=
  Subscribe (root m) (path m) (_eventContext m) (SetStateValue f).


(** Another handle object for the same binding as [counter]. *)
Definition other_counter_handle : Model := mkModel 0 "_page.counter" None 42.

(** [owned_by f l]: the listener [l] is the hook's arrow function closed
    over the state dispatcher of component [f]. *)
Definition owned_by (f : nat) (l : Listener) : bool :=
  match l_fn l with
  | OnModelEvent (SetStateValue g) _ => (g =? f)%nat
  | Foreign _ => false
  end.

(** Mutations other code performs on the store through a handle. *)
Inductive Mutation : Type :=
| MSet (v : value)
| MDel.

Definition mutate (q : Model) (mu : Mutation) : M unit :=
  match mu with
  | MSet v => set q v
  | MDel => del q
  end.

(** [at_or_beneath m q]: the handle [q] addresses, in the same root model,
    the path of [m] or a path below it. *)
Definition at_or_beneath (m q : Model) : bool :=
  (root q =? root m)%nat && beneath (segments (path m)) (segments (path q)).

(** ** Histories of a page *)

(** What can happen, one event at a time: a component instance renders
    (mounting on its first render), a component instance is discarded, some
    code mutates the store, a setter returned by the hook is called, or
    other code registers a listener of its own. *)
Inductive Step : Type :=
| StepRender (f : nat) (scopedModel : Model) (defaultValue : value)
| StepUnmount (f : nat)
| StepMutate (q : Model) (mu : Mutation)
| StepSetter (s : Setter) (newValue : value)
| StepForeignOn (q : Model) (tag : nat).

Definition run_step (s : Step) : M unit :=
  match s with
  | StepRender f m d => render f m d ;;; ret tt
  | StepUnmount f => unmount f
  | StepMutate q mu => mutate q mu
  | StepSetter s v => setModelValue s v
  | StepForeignOn q tag => on q (Foreign tag) ;;; ret tt
  end.

Definition run (steps : list Step) : World → World :=
  exec (for_each steps run_step).

(** The cleanup closure a component instance currently holds. *)
Definition cleanup_of (w : World) (f : nat) : option Destroy :=
  effectDestroy (fiber_of w f).

Definition without_opt (od : option Destroy) (ls : list Listener) : list Listener :=
  match od with
  | Some d => without d ls
  | None => ls
  end.

(** The registry and the cleanup closures agree: listener identities are
    unique and below the allocation counter, every listener of the hook is
    the one its component's cleanup closure names, and every cleanup closure
    names a registered listener of its component. *)
Record registry_inv (ls : list Listener) (next : nat)
    (cleanup : nat → option Destroy) : Prop := mkRegistryInv {
  inv_bound : ∀ l, l ∈ ls → (l_id l < next)%nat;
  inv_nodup : NoDup (l_id <$> ls);
  inv_listener : ∀ l f lm,
    l ∈ ls → l_fn l = OnModelEvent (SetStateValue f) lm →
    cleanup f = Some (Unsubscribe lm (l_id l)) ∧ l_root l = root lm;
  inv_cleanup : ∀ f lm id,
    cleanup f = Some (Unsubscribe lm id) →
    ∃ l, l ∈ ls ∧ l_id l = id ∧ l_root l = root lm ∧
         l_fn l = OnModelEvent (SetStateValue f) lm;
}.

Definition consistent (w : World) : Prop :=
  registry_inv (listeners w) (next_listener w) (cleanup_of w) ∧
  ∀ f, effectPending (fiber_of w f) = None.

(** A short history: the counter component mounts, other code subscribes
    to the message, a second component mounts on the message, and the
    counter is deleted. *)
Definition page_history : list Step :=
  [ StepRender 0 counter (VNum 1);
    StepForeignOn message 7;
    StepRender 1 message VUndefined;
    StepMutate counter MDel ].

(** ** The scenarios of the test suite (test/racer.test.tsx) *)

(** First test: the message is set, then a component with two calls of the
    hook renders ([message] without default, [counter] with default 1);
    each call has its own cells, numbered 0 and 1. *)
Definition suite_rendered : World :=
  exec (render 1 counter (VNum 1))
    (exec (render 0 message VUndefined) world_with_message).

Definition suite_mutated : World :=
  exec (set counter (VNum 2))
    (exec (set message (VStr "Racer-set message")) suite_rendered).

Definition suite_rerendered : World :=
  exec (render 1 counter (VNum 1))
    (exec (render 0 message VUndefined) suite_mutated).

(** Second test: the component moves from one item of a list to the next. *)
Definition item (i : string) : Model :=
  mkModel 0 (String.append "_page.messageList." i) None 0.

Definition list_world : World :=
  exec (set (item "1") (VStr "Message B"))
    (exec (set (item "0") (VStr "Message A")) empty_world).

Definition list_rebound : World :=
  exec (render 0 (item "1") VUndefined)
    (exec (render 0 (item "0") VUndefined) list_world).

(** ** Notions for the life of a consumer *)

(** [bound_to w f m]: the last render of component [f] derived its three
    comparison keys from a handle like [m]. *)
Definition bound_to (w : World) (f : nat) (m : Model) : Prop :=
  effectDeps (fiber_of w f) = Some (keys_of m).

(** A listener of the hook sits in the registry of the root model of its
    [listenerModel], at that model's path. *)
Definition well_bound (l : Listener) : Prop :=
  match l_fn l with
  | OnModelEvent _ listenerModel =>
      l_root l = root listenerModel ∧
      l_segments l = segments (path listenerModel)
  | Foreign _ => True
  end.

(** Every listener of the hook is well bound, and a component whose effect
    ran holds the cleanup closure of a subscription made with its keys. *)
Definition coherent (w : World) : Prop :=
  Forall well_bound (listeners w) ∧
  ∀ f deps,
    effectDeps (fiber_of w f) = Some deps →
    ∃ lm id, cleanup_of w f = Some (Unsubscribe lm id) ∧ keys_of lm = deps.

(** [renders f s]: the step is a render of component [f]. *)
Definition renders (f : nat) (s : Step) : bool :=
  match s with
  | StepRender g _ _ => (g =? f)%nat
  | _ => false
  end.

(** A second handle on the message and a second component, for examples. *)
Definition message_again : Model := mkModel 0 "_page.message" None 99.

(** The second test as a history: the list is filled, then a component
    mounts on its first item. *)
Definition rebinding_history : list Step :=
  [ StepMutate (item "0") (MSet (VStr "Message A"));
    StepMutate (item "1") (MSet (VStr "Message B"));
    StepRender 0 (item "0") VUndefined ].

(** * The mount adapter (derby.ts) *)

(** ** react-dom roots and Derby components *)

(** DOM containers, React nodes and root options are opaque to the adapter:
    it passes them on. *)
Inductive Container : Type := DomContainer (id : nat).
Inductive ReactNode : Type := ReactElement (id : nat).
Inductive RootOptions : Type := RootOptionsObject (id : nat).

(** A root made by [createRoot]. *)
Record ReactRoot : Type := mkReactRoot {
  root_container : Container;
  root_options : RootOptions;
  root_children : option ReactNode;
  root_unmounted : bool;
}.

(** Event callbacks on a Derby component.  [UnmountRoot reactRoot] is the
    arrow function of derby.ts:36-38; [OtherCallback] is any other one. *)
Inductive Callback : Type :=
| UnmountRoot (reactRoot : nat)
| OtherCallback (tag : nat).

#[global] Instance Callback_eq_dec : EqDecision Callback.
Proof. solve_decision. Defined.

Record Page : Type := mkPage {
  reactRoots : gmap nat ReactRoot;
  next_root : nat;
  (* component, event name, callback; in registration order *)
  componentListeners : list (nat * string * Callback);
}.

Definition empty_page : Page := mkPage ∅ 0%nat [].

(** How a call completes: normally with a value, or by throwing.  What was
    done before the throw stays done. *)
Inductive Completion (A : Type) : Type :=
| Normal (a : A)
| Throw (error : string).
Arguments Normal {A} a.
Arguments Throw {A} error.

Definition E (A : Type) : Type := Page → Completion A * Page.

Definition retE {A} (a : A) : E A := λ p, (Normal a, p).

Definition bindE {A B} (c : E A) (k : A → E B) : E B :=
  λ p, match c p with
       | (Normal a, p') => k a p'
       | (Throw e, p') => (Throw e, p')
       end.

Notation "x <<- c ;; k" := (bindE c (λ x, k))
  (at level 100, c at level 99, k at level 200, right associativity).
Notation "c >>> k" := (bindE c (λ _, k))
  (at level 100, k at level 200, right associativity).

(** The handle the adapter returns: [{ reactRoot }]. *)
Record Mounted : Type := mkMounted { reactRoot : nat }.

Definition is_mounted (p : Page) (r : nat) : bool :=
  match reactRoots p !! r with
  | Some rt => negb (root_unmounted rt)
  | None => false
  end.

(** Modelled from the spec: unmounting "releases its subtree and internal
    resources", and "a second unmount does not throw".  This is
    [reactRoot.unmount()]. *)
Definition root_unmount (r : nat) : E unit :=
  λ p,
    match reactRoots p !! r with
    | Some rt =>
        (Normal tt,
         mkPage (<[r := mkReactRoot (root_container rt) (root_options rt)
                                    None true]> (reactRoots p))
                (next_root p) (componentListeners p))
    | None => (Normal tt, p)
    end.

(** [derbyComponent.on(name, callback)] *)
Definition component_on (c : nat) (name : string) (cb : Callback) : E unit :=
  λ p, (Normal tt,
        mkPage (reactRoots p) (next_root p)
               (componentListeners p ++ [(c, name, cb)])).

Definition run_callback (cb : Callback) : E unit :=
  match cb with
  | UnmountRoot reactRoot => root_unmount reactRoot
  | OtherCallback _ => retE tt
  end.

Fixpoint run_callbacks (cbs : list Callback) : E unit :=
  match cbs with
  | [] => retE tt
  | cb :: cbs' => run_callback cb >>> run_callbacks cbs'
  end.

Definition callbacks_for (c : nat) (name : string)
    (ls : list (nat * string * Callback)) : list Callback :=
  omap (λ '(c', name', cb),
          if decide (c' = c ∧ name' = name) then Some cb else None) ls.

(** Modelled from the spec: the host component has "an observable destroy
    lifecycle event".  When the component emits an event, its callbacks for
    that event run, in registration order. *)
Definition emit (c : nat) (name : string) : E unit :=
  λ p, run_callbacks (callbacks_for c name (componentListeners p)) p.

Section MountAdapter.

(** What the rendering library does with its arguments is not the
    adapter's business; whether [createRoot] and the first [render] throw
    is left open. *)
Variable createRoot_throws : Container → RootOptions → bool.
Variable render_throws : ReactNode → bool.

(** [createRoot(container, options)] *)
Definition createRoot (container : Container) (options : RootOptions) : E nat :=
  λ p,
    if createRoot_throws container options
    then (Throw "createRoot", p)
    else
      let r := next_root p in
      (Normal r,
       mkPage (<[r := mkReactRoot container options None false]> (reactRoots p))
              (S r) (componentListeners p)).

(** [reactRoot.render(children)] *)
Definition root_render (r : nat) (children : ReactNode) : E unit :=
  λ p,
    match reactRoots p !! r with
    | Some rt =>
        if root_unmounted rt then (Throw "Cannot update an unmounted root.", p)
        else if render_throws children then (Throw "render", p)
        else
          (Normal tt,
           mkPage (<[r := mkReactRoot (root_container rt) (root_options rt)
                                      (Some children) false]> (reactRoots p))
                  (next_root p) (componentListeners p))
    | None => (Throw "render", p)
    end.

(** derby.ts:29-41 *)
Definition renderReactComponent (derbyComponent : nat) (domContainer : Container)
    (reactComponent : ReactNode) (reactRootOptions : RootOptions) : E Mounted :=
  reactRoot <<- createRoot domContainer reactRootOptions ;;
  component_on derbyComponent "destroy" (UnmountRoot reactRoot) >>>
  root_render reactRoot reactComponent >>>
  retE {| reactRoot := reactRoot |}.

(** What happens on a page, one event at a time: a component emits an
    event, the adapter is called again, or other code subscribes to a
    component event. *)
Inductive PageStep : Type :=
| Emit (c : nat) (name : string)
| Mount (c : nat) (d : Container) (node : ReactNode) (options : RootOptions)
| Listen (c : nat) (name : string) (tag : nat).

Definition page_step (s : PageStep) (p : Page) : Page :=
  match s with
  | Emit c name => snd (emit c name p)
  | Mount c d node options => snd (renderReactComponent c d node options p)
  | Listen c name tag => snd (component_on c name (OtherCallback tag) p)
  end.

Definition page_run (steps : list PageStep) (p : Page) : Page :=
  foldl (λ p s, page_step s p) p steps.

End MountAdapter.

(** [destroys c s]: the step is the destroy event of component [c]. *)
Definition destroys (c : nat) (s : PageStep) : bool :=
  match s with
  | Emit c' name => bool_decide (c' = c ∧ name = "destroy")
  | _ => false
  end.

(** No callback registered so far refers to a root that does not exist
    yet. *)
Definition page_wf (p : Page) : Prop :=
  ∀ c name r, (c, name, UnmountRoot r) ∈ componentListeners p →
              (r < next_root p)%nat.

(** The declared parameters of [renderReactComponent] (derby.ts:29-34);
    none carries the [?] that would make it optional. *)
Record Param : Type := mkParam {
  param_name : string;
  param_optional : bool;
}.

Definition renderReactComponent_params : list Param :=
  [ mkParam "derbyComponent" false;
    mkParam "domContainer" false;
    mkParam "reactComponent" false;
    mkParam "reactRootOptions" false ].

(** The arity check of a call with [n] arguments: every required parameter
    is supplied and no more arguments than parameters are given. *)
Definition accepts_arguments (ps : list Param) (n : nat) : bool :=
  (length (List.filter (λ p, negb (param_optional p)) ps) <=? n)%nat
  && (n <=? length ps)%nat.

(** The call of the function's own docstring (derby.ts:25) and of the
    README passes three arguments. *)
Definition documented_call_arguments : nat := 3.

(** The page right after a successful mount that made root [r] for
    component [c]: where the page stands while a mounted root is guarded by
    its destroy callback. *)
Definition guarded (c r : nat) (p : Page) : Prop :=
  (c, "destroy", UnmountRoot r) ∈ componentListeners p ∧
  (∀ c' name, (c', name, UnmountRoot r) ∈ componentListeners p →
              c' = c ∧ name = "destroy") ∧
  (r < next_root p)%nat.

Definition root_is_unmounted (p : Page) (r : nat) : Prop :=
  ∃ rt, reactRoots p !! r = Some rt ∧ root_unmounted rt = true.

(** A page on which component [0] has mounted one element. *)
Definition mounted_page : Page :=
  snd (renderReactComponent (λ _ _, false) (λ _, false)
         0 (DomContainer 0) (ReactElement 0) (RootOptionsObject 0) empty_page).

(** What holds of every page a history leads to: callbacks only name roots
    that exist, and every root made so far is on the page and guarded by
    the destroy event of one host component. *)
Definition page_inv (p : Page) : Prop :=
  page_wf p ∧
  ∀ r, (r < next_root p)%nat →
       is_Some (reactRoots p !! r) ∧ ∃ c, guarded c r p.

(** Two host components mount one element each; in between, other code
    subscribes to the first one. *)
Definition two_roots_history : list PageStep :=
  [ Mount 0 (DomContainer 0) (ReactElement 0) (RootOptionsObject 0);
    Listen 0 "destroy" 7;
    Mount 1 (DomContainer 1) (ReactElement 1) (RootOptionsObject 0) ].
(** * Properties *)

(** ** The model against the test suite *)

Ltac by_computation :=
  repeat match goal with |- _ ∧ _ => split end; vm_compute; reflexivity.

Example segments_of_item :
  segments "_page.messageList.0" = ["_page"; "messageList"; "0"].
Proof. by_computation. Qed.

Example suite_initial_values :
  fst (eval (render 0 message VUndefined) world_with_message)
    = VStr "Initial message" ∧
  fst (eval (render 1 counter (VNum 1))
         (exec (render 0 message VUndefined) world_with_message)) = VNum 1 ∧
  value_at suite_rendered counter = VNum 1 ∧
  length (listeners suite_rendered) = 2%nat.
Proof. by_computation. Qed.

Example suite_model_to_react :
  memoizedState (fiber_of suite_mutated 0) = Some (VStr "Racer-set message") ∧
  memoizedState (fiber_of suite_mutated 1) = Some (VNum 2) ∧
  fst (eval (render 1 counter (VNum 1)) suite_mutated) = VNum 2 ∧
  listeners suite_rerendered = listeners suite_rendered.
Proof. by_computation. Qed.

Example suite_react_to_model :
  value_at (exec (setModelValue (SetModelValue message) (VStr "User-typed message"))
              suite_rerendered) message
  = VStr "User-typed message".
Proof. by_computation. Qed.

Example suite_rebinding :
  fst (eval (render 0 (item "1") VUndefined)
         (exec (render 0 (item "0") VUndefined) list_world)) = VStr "Message B" ∧
  length (listeners list_rebound) = 1%nat ∧
  fiber_of (exec (set (item "0") (VStr "A Message A")) list_rebound) 0
    = fiber_of list_rebound 0 ∧
  memoizedState
    (fiber_of (exec (set (item "1") (VStr "B Message B")) list_rebound) 0)
    = Some (VStr "B Message B").
Proof. by_computation. Qed.

(** ** The document tree *)

Lemma field_get_set_same k v fs : field_get k (field_set k v fs) = v.
Proof.
  induction fs as [|[k' v'] fs IH]; simpl.
  - by rewrite decide_True.
  - destruct (decide (k = k')) as [->|Hne]; simpl.
    + by rewrite decide_True.
    + by rewrite decide_False.
Qed.

Lemma field_get_set_other k k' v fs :
  k ≠ k' → field_get k' (field_set k v fs) = field_get k' fs.
Proof.
  intros Hne. induction fs as [|[k0 v0] fs IH]; simpl.
  - by rewrite decide_False.
  - destruct (decide (k = k0)) as [->|Hk]; simpl.
    + by rewrite !decide_False.
    + destruct (decide (k' = k0)); done.
Qed.

Lemma lookup_set_same p v node : lookup_path p (set_path p v node) = v.
Proof.
  revert node. induction p as [|k ks IH]; intros node; simpl; [done|].
  by rewrite field_get_set_same.
Qed.

Lemma beneath_prefix p q : beneath p q = true ↔ p `prefix_of` q.
Proof.
  revert q. induction p as [|a p IH]; intros q; simpl.
  - split; [intros _; apply prefix_nil | done].
  - destruct q as [|b q].
    + split; [done | intros H; by apply prefix_nil_not in H].
    + destruct (decide (a = b)) as [->|Hne].
      * rewrite IH. split; [apply prefix_cons | apply prefix_cons_inv_2].
      * split; [done | intros H; by apply prefix_cons_inv_1 in H].
Qed.

Lemma lookup_set_disjoint p q v node :
  disjoint_paths p q = true →
  lookup_path q (set_path p v node) = lookup_path q node.
Proof.
  unfold disjoint_paths. revert q node.
  induction p as [|a p IH]; intros q node; simpl; [done|].
  destruct q as [|b q]; simpl; [done|].
  destruct (decide (a = b)) as [->|Hne].
  - rewrite decide_True by done. intros H.
    rewrite field_get_set_same. by apply IH.
  - intros _. by rewrite field_get_set_other.
Qed.

(** ** Running computations *)

Lemma exec_bind {A B} (c : M A) (k : A → M B) w :
  exec (bind c k) w = exec (k (eval c w)) (exec c w).
Proof. unfold exec, eval, bind. by destruct (c w). Qed.

Lemma eval_bind {A B} (c : M A) (k : A → M B) w :
  eval (bind c k) w = eval (k (eval c w)) (exec c w).
Proof. unfold exec, eval, bind. by destruct (c w). Qed.

Lemma exec_ret {A} (a : A) w : exec (ret a) w = w.
Proof. done. Qed.

Lemma exec_modify f w : exec (modify f) w = f w.
Proof. done. Qed.

Lemma exec_for_each_cons {A} (a : A) l body w :
  exec (for_each (a :: l) body) w = exec (for_each l body) (exec (body a) w).
Proof. simpl. by rewrite exec_bind. Qed.

Lemma keeps_ret {A B} (proj : World → B) (a : A) : keeps proj (ret a).
Proof. by intros w. Qed.

Lemma keeps_bind {A B C} (proj : World → C) (c : M A) (k : A → M B) :
  keeps proj c → (∀ a, keeps proj (k a)) → keeps proj (bind c k).
Proof. intros Hc Hk w. by rewrite exec_bind, Hk, Hc. Qed.

Lemma keeps_for_each {A B} (proj : World → B) (l : list A) body :
  (∀ a, keeps proj (body a)) → keeps proj (for_each l body).
Proof.
  intros Hb. induction l as [|a l IH]; [apply keeps_ret|].
  simpl. apply keeps_bind; auto.
Qed.

Create HintDb frame discriminated.

#[local] Hint Resolve keeps_ret keeps_bind keeps_for_each : frame.

(** The state dispatcher and the reads of the listeners touch neither the
    documents nor the registry. *)
Lemma dispatch_keeps_stores d v : keeps stores (dispatch d v).
Proof. destruct d as [f]. intros w. unfold dispatch, exec, modify; simpl.
  by destruct (fibers w !! f). Qed.

Lemma dispatch_keeps_calls d v : keeps calls (dispatch d v).
Proof. destruct d as [f]. intros w. unfold dispatch, exec, modify; simpl.
  by destruct (fibers w !! f). Qed.

Lemma getDeepCopy_keeps_stores m : keeps stores (getDeepCopy m).
Proof. by intros w. Qed.

Lemma getDeepCopy_keeps_fibers m : keeps fibers (getDeepCopy m).
Proof. by intros w. Qed.

#[local] Hint Resolve dispatch_keeps_stores getDeepCopy_keeps_stores
  getDeepCopy_keeps_fibers : frame.

Lemma run_listener_keeps_stores l : keeps stores (run_listener l).
Proof. unfold run_listener. destruct (l_fn l); auto with frame. Qed.

#[local] Hint Resolve run_listener_keeps_stores : frame.

Lemma exec_emitMutation r segs w :
  exec (emitMutation r segs) w =
  exec (for_each (List.filter (listens r segs) (listeners w)) run_listener) w.
Proof. done. Qed.

Lemma emitMutation_keeps_stores r segs : keeps stores (emitMutation r segs).
Proof. intros w. rewrite exec_emitMutation. apply keeps_for_each. auto with frame. Qed.

Lemma useState_keeps_stores f v : keeps stores (useState f v).
Proof. intros w. unfold useState, exec.
  by destruct (memoizedState (fiber_of w f)). Qed.

Lemma useEffect_keeps_stores f e d : keeps stores (useEffect f e d).
Proof. intros w. unfold useEffect, exec, modify; simpl.
  destruct (effectDeps (fiber_of w f)); [case_decide|]; done. Qed.

(** ** What one invocation of the hook does to the store *)

Lemma value_at_log c w m : value_at (log c w) m = value_at w m.
Proof. done. Qed.

Lemma value_at_stores w w' m : stores w' = stores w → value_at w' m = value_at w m.
Proof. unfold value_at, root_data. by intros ->. Qed.

Lemma value_at_overwritten w' w m v :
  stores w' = overwritten m v w → value_at w' m = v.
Proof.
  unfold value_at, root_data, overwritten. intros ->.
  rewrite lookup_insert_eq. simpl. apply lookup_set_same.
Qed.

Lemma stores_set m v w : stores (exec (set m v) w) = overwritten m v w.
Proof.
  unfold set. rewrite !exec_bind, emitMutation_keeps_stores. done.
Qed.

Lemma stores_setNull m v w :
  stores (exec (setNull m v) w) =
  if nullish (value_at w m) then overwritten m v w else stores w.
Proof.
  unfold setNull. rewrite exec_bind, exec_modify.
  unfold exec at 1. rewrite value_at_log.
  destruct (nullish (value_at w m)); [|done].
  fold (exec (write (root m) (segments (path m)) v;;;
              emitMutation (root m) (segments (path m))) (log (CallSetNull m v) w)).
  rewrite exec_bind, emitMutation_keeps_stores. done.
Qed.

Lemma eval_useRacerState f m d w :
  eval (useRacerState f m d) w = (coalesce (value_at w m) d, SetModelValue m).
Proof.
  unfold useRacerState. rewrite !eval_bind. done.
Qed.

Lemma stores_useRacerState f m d w :
  stores (exec (useRacerState f m d) w) =
  if negb (nullish d) && nullish (value_at w m)
  then overwritten m d w else stores w.
Proof.
  unfold useRacerState.
  rewrite exec_bind, exec_bind, exec_bind, exec_bind, exec_ret.
  rewrite useEffect_keeps_stores, useState_keeps_stores.
  destruct (nullish d); cbn [negb andb].
  - done.
  - rewrite stores_setNull. done.
Qed.

(** C1.  When the store holds no value (null or undefined) at the path of
    the scoped model and a non-null default is supplied, one invocation of
    [useRacerState] leaves the default in the store at that path and
    returns the default as the current value. *)
Theorem useRacerState_applies_default f m D w :
  nullish (value_at w m) = true →
  nullish D = false →
  value_at (exec (useRacerState f m D) w) m = D ∧
  fst (eval (useRacerState f m D) w) = D.
Proof.
  intros Habsent HD. split.
  - apply value_at_overwritten with w.
    by rewrite stores_useRacerState, HD, Habsent.
  - rewrite eval_useRacerState. simpl. unfold coalesce. by rewrite Habsent.
Qed.

Lemma useRacerState_applies_default_witness :
  value_at (exec (useRacerState 0 counter (VNum 1)) empty_world) counter = VNum 1 ∧
  fst (eval (useRacerState 0 counter (VNum 1)) empty_world) = VNum 1.
Proof.
  apply (useRacerState_applies_default 0 counter (VNum 1) empty_world);
    reflexivity.
Defined.

(** C2.  When the store holds a value [V] at the path of the scoped model,
    an invocation of [useRacerState] with any default leaves the documents
    untouched, so the value at the path is still [V], and returns [V]. *)
Theorem useRacerState_keeps_existing f m V D w :
  value_at w m = V →
  nullish V = false →
  stores (exec (useRacerState f m D) w) = stores w ∧
  value_at (exec (useRacerState f m D) w) m = V ∧
  fst (eval (useRacerState f m D) w) = V.
Proof.
  intros HV Hpresent.
  assert (Hs : stores (exec (useRacerState f m D) w) = stores w).
  { rewrite stores_useRacerState, HV, Hpresent. by rewrite andb_false_r. }
  split; [done|]. split.
  - by rewrite (value_at_stores w).
  - rewrite eval_useRacerState. simpl. unfold coalesce. by rewrite HV, Hpresent.
Qed.

Lemma useRacerState_keeps_existing_witness :
  stores (exec (useRacerState 0 message (VStr "fallback")) world_with_message)
    = stores world_with_message ∧
  value_at (exec (useRacerState 0 message (VStr "fallback")) world_with_message)
    message = VStr "Initial message" ∧
  fst (eval (useRacerState 0 message (VStr "fallback")) world_with_message)
    = VStr "Initial message".
Proof.
  apply (useRacerState_keeps_existing 0 message (VStr "Initial message")
           (VStr "fallback") world_with_message); reflexivity.
Defined.

(** C3, as stated, fails: the first invocation wrote the default, the
    component is mounted and has been asked to render again, and that later
    invocation writes the default a second time. *)
Lemma default_written_again_on_rerender :
  value_at counter_mounted counter = VNum 1 ∧
  memoizedState (fiber_of counter_deleted 0) = Some VUndefined ∧
  scheduled (fiber_of counter_deleted 0) = true ∧
  value_at counter_deleted counter = VUndefined ∧
  value_at counter_rerendered counter = VNum 1 ∧
  stores counter_rerendered ≠ stores counter_deleted.
Proof.
  repeat match goal with |- _ ∧ _ => split end;
    try (vm_compute; reflexivity).
  intros H.
  assert (Hv : value_at counter_rerendered counter
               = value_at counter_deleted counter)
    by (by apply value_at_stores).
  vm_compute in Hv. discriminate Hv.
Qed.

(** C3, amended.  With a non-null default, every invocation of the hook,
    the first one and each later one alike, writes the default exactly when
    the store holds no value at the path at the time of that invocation,
    and otherwise leaves the documents as they are. *)
Theorem useRacerState_default_written_when_absent f m D w :
  nullish D = false →
  stores (exec (useRacerState f m D) w) =
    (if nullish (value_at w m) then overwritten m D w else stores w) ∧
  (nullish (value_at w m) = true →
     value_at (exec (useRacerState f m D) w) m = D) ∧
  nullish (value_at (exec (useRacerState f m D) w) m) = false.
Proof.
  intros HD.
  assert (Hs : stores (exec (useRacerState f m D) w) =
               if nullish (value_at w m) then overwritten m D w else stores w).
  { by rewrite stores_useRacerState, HD. }
  split; [done|].
  destruct (nullish (value_at w m)) eqn:Habsent.
  - pose proof (value_at_overwritten _ _ _ _ Hs) as ->. by split.
  - split; [done|]. by rewrite (value_at_stores w).
Qed.

Lemma useRacerState_default_written_when_absent_witness :
  stores counter_rerendered =
    (if nullish (value_at counter_deleted counter)
     then overwritten counter (VNum 1) counter_deleted
     else stores counter_deleted) ∧
  (nullish (value_at counter_deleted counter) = true →
     value_at counter_rerendered counter = VNum 1) ∧
  nullish (value_at counter_rerendered counter) = false.
Proof.
  apply (useRacerState_default_written_when_absent 0 counter (VNum 1)
           counter_deleted).
  reflexivity.
Defined.

(** ** The setter *)

Lemma calls_run_listeners ls w :
  calls (exec (for_each ls run_listener) w) = calls w ++ listener_reads ls.
Proof.
  revert w. induction ls as [|l ls IH]; intros w.
  - simpl. by rewrite app_nil_r.
  - rewrite exec_for_each_cons, IH. unfold listener_reads at 2. simpl.
    fold (listener_reads ls). rewrite app_assoc. f_equal.
    unfold run_listener. destruct (l_fn l) as [d lm|tag].
    + rewrite exec_bind, dispatch_keeps_calls. done.
    + by rewrite exec_ret, app_nil_r.
Qed.

Lemma calls_set m v w :
  calls (exec (set m v) w) =
  calls w ++ CallSet m v :: listener_reads (notified m w).
Proof.
  unfold set. rewrite !exec_bind, exec_emitMutation, calls_run_listeners.
  rewrite !exec_modify. simpl. by rewrite <- app_assoc.
Qed.

(** C4.  The setter the hook returns makes exactly one call on the store,
    [set(newValue)] on the scoped model, before anything else: the value at
    the bound path afterwards is [newValue] whatever was there, every
    disjoint path of the document and every other document is as before,
    and the only other calls are the reads of the listeners that the write
    notified, which come after it. *)
Theorem setter_overwrites f m d w0 newValue w :
  let setter := snd (eval (useRacerState f m d) w0) in
  let w' := exec (setModelValue setter newValue) w in
  value_at w' m = newValue ∧
  (∀ q, disjoint_paths (segments (path m)) q = true →
        lookup_path q (root_data w' (root m))
        = lookup_path q (root_data w (root m))) ∧
  (∀ r, r ≠ root m → root_data w' r = root_data w r) ∧
  calls w' = calls w ++ CallSet m newValue :: listener_reads (notified m w).
Proof.
  rewrite eval_useRacerState. cbn [snd setModelValue].
  pose proof (stores_set m newValue w) as Hs.
  repeat split.
  - by apply value_at_overwritten with w.
  - intros q Hq. unfold root_data at 1. rewrite Hs. unfold overwritten.
    rewrite lookup_insert_eq. simpl. by apply lookup_set_disjoint.
  - intros r Hr. unfold root_data at 1. rewrite Hs. unfold overwritten.
    by rewrite lookup_insert_ne.
  - apply calls_set.
Qed.

Lemma setter_overwrites_witness :
  value_at (exec (setModelValue (SetModelValue counter) (VNum 5)) counter_mounted)
    counter = VNum 5 ∧
  lookup_path (segments "_page.message")
    (root_data (exec (setModelValue (SetModelValue counter) (VNum 5))
                  counter_mounted) 0)
  = lookup_path (segments "_page.message") (root_data counter_mounted 0).
Proof.
  pose proof (setter_overwrites 0 counter (VNum 1) empty_world (VNum 5)
                counter_mounted) as (H1 & H2 & _).
  split; [exact H1 | apply H2; reflexivity].
Defined.

(** ** Frame properties of the library calls *)

Ltac frame_by_cases :=
  intros w; unfold exec, modify; simpl;
  repeat case_match; simpl; done.

Lemma log_keeps_registry c : keeps registry (modify (log c)).
Proof. by intros w. Qed.

Lemma log_keeps_effect_cells f c : keeps (effect_cells f) (modify (log c)).
Proof. by intros w. Qed.

Lemma log_keeps_fibers c : keeps fibers (modify (log c)).
Proof. by intros w. Qed.

Lemma write_keeps_registry r segs v : keeps registry (write r segs v).
Proof. by intros w. Qed.

Lemma write_keeps_fibers r segs v : keeps fibers (write r segs v).
Proof. by intros w. Qed.

Lemma erase_keeps_registry r segs : keeps registry (erase r segs).
Proof. by intros w. Qed.

Lemma erase_keeps_fibers r segs : keeps fibers (erase r segs).
Proof. by intros w. Qed.

Lemma keeps_fibers_effect_cells {A} f (c : M A) :
  keeps fibers c → keeps (effect_cells f) c.
Proof. intros H w. unfold effect_cells, fiber_of. by rewrite H. Qed.

Lemma dispatch_keeps_registry d v : keeps registry (dispatch d v).
Proof. destruct d as [g]. unfold dispatch. frame_by_cases. Qed.

Lemma fiber_of_insert w g fb f :
  fiber_of (with_fibers <[g := fb]> w) f
  = if decide (g = f) then fb else fiber_of w f.
Proof.
  unfold fiber_of, with_fibers; simpl. rewrite lookup_insert.
  by destruct (decide (g = f)).
Qed.

Lemma fiber_of_lookup w f fb : fibers w !! f = Some fb → fiber_of w f = fb.
Proof. unfold fiber_of. by intros ->. Qed.

Lemma dispatch_keeps_effect_cells f d v : keeps (effect_cells f) (dispatch d v).
Proof.
  destruct d as [g]. intros w. unfold dispatch. rewrite exec_modify.
  destruct (fibers w !! g) as [fb|] eqn:Hg; [|done].
  unfold effect_cells. rewrite fiber_of_insert.
  destruct (decide (g = f)) as [->|]; [|done].
  by rewrite (fiber_of_lookup _ _ _ Hg).
Qed.

Lemma getDeepCopy_keeps_registry m : keeps registry (getDeepCopy m).
Proof. by intros w. Qed.

#[local] Hint Resolve log_keeps_registry log_keeps_effect_cells
  log_keeps_fibers write_keeps_registry write_keeps_fibers
  erase_keeps_registry erase_keeps_fibers dispatch_keeps_registry
  dispatch_keeps_effect_cells getDeepCopy_keeps_registry
  keeps_fibers_effect_cells : frame.

Lemma run_listener_keeps_registry l : keeps registry (run_listener l).
Proof. unfold run_listener. destruct (l_fn l); auto with frame. Qed.

Lemma run_listener_keeps_effect_cells f l : keeps (effect_cells f) (run_listener l).
Proof. unfold run_listener. destruct (l_fn l); auto 6 with frame. Qed.

#[local] Hint Resolve run_listener_keeps_registry
  run_listener_keeps_effect_cells : frame.

Lemma emitMutation_keeps_registry r segs : keeps registry (emitMutation r segs).
Proof. intros w. rewrite exec_emitMutation. apply keeps_for_each. auto with frame. Qed.

Lemma emitMutation_keeps_effect_cells f r segs :
  keeps (effect_cells f) (emitMutation r segs).
Proof. intros w. rewrite exec_emitMutation. apply keeps_for_each. auto with frame. Qed.

#[local] Hint Resolve emitMutation_keeps_registry
  emitMutation_keeps_effect_cells : frame.

Lemma exec_setNull m v w :
  exec (setNull m v) w =
  if nullish (value_at w m)
  then exec (write (root m) (segments (path m)) v ;;;
             emitMutation (root m) (segments (path m))) (log (CallSetNull m v) w)
  else log (CallSetNull m v) w.
Proof.
  unfold setNull. rewrite exec_bind, exec_modify.
  unfold exec at 1. rewrite value_at_log.
  by destruct (nullish (value_at w m)).
Qed.

Lemma keeps_setNull {B} (proj : World → B) m v :
  (∀ c, keeps proj (modify (log c))) →
  keeps proj (write (root m) (segments (path m)) v) →
  keeps proj (emitMutation (root m) (segments (path m))) →
  keeps proj (setNull m v).
Proof.
  intros Hlog Hw He w. rewrite exec_setNull.
  destruct (nullish (value_at w m)).
  - rewrite exec_bind, He, Hw. apply (Hlog (CallSetNull m v) w).
  - apply (Hlog (CallSetNull m v) w).
Qed.

Lemma setNull_keeps_registry m v : keeps registry (setNull m v).
Proof. apply keeps_setNull; auto with frame. Qed.

Lemma setNull_keeps_effect_cells f m v : keeps (effect_cells f) (setNull m v).
Proof. apply keeps_setNull; auto with frame. Qed.

Lemma set_keeps_registry m v : keeps registry (set m v).
Proof. unfold set. auto 7 with frame. Qed.

Lemma set_keeps_effect_cells f m v : keeps (effect_cells f) (set m v).
Proof. unfold set. auto 7 with frame. Qed.

Lemma del_keeps_registry m : keeps registry (del m).
Proof. unfold del. auto 7 with frame. Qed.

Lemma del_keeps_effect_cells f m : keeps (effect_cells f) (del m).
Proof. unfold del. auto 7 with frame. Qed.

Lemma useState_keeps_registry f v : keeps registry (useState f v).
Proof. intros w. unfold useState, exec.
  by destruct (memoizedState (fiber_of w f)). Qed.

Lemma useState_keeps_effect_cells g f v : keeps (effect_cells g) (useState f v).
Proof.
  intros w. unfold useState, exec.
  destruct (memoizedState (fiber_of w f)); simpl; [done|].
  unfold effect_cells. rewrite fiber_of_insert.
  by destruct (decide (f = g)) as [->|].
Qed.

Lemma useEffect_keeps_registry f e d : keeps registry (useEffect f e d).
Proof. intros w. unfold useEffect, exec, modify; simpl.
  destruct (effectDeps (fiber_of w f)); [case_decide|]; done. Qed.

#[local] Hint Resolve setNull_keeps_registry setNull_keeps_effect_cells
  useState_keeps_registry useState_keeps_effect_cells : frame.

(** ** The subscription across renders *)

Lemma useRacerState_split f m d w :
  exec (useRacerState f m d) w =
  exec (useEffect f (effect_of f m) (keys_of m)) (exec (hook_prefix f m d) w).
Proof.
  unfold useRacerState, hook_prefix.
  rewrite !exec_bind, exec_ret. repeat f_equal.
  unfold eval, useState. by destruct (memoizedState _).
Qed.

Lemma hook_prefix_keeps_registry f m d : keeps registry (hook_prefix f m d).
Proof. unfold hook_prefix. destruct (nullish d); simpl; auto 7 with frame. Qed.

Lemma hook_prefix_keeps_effect_cells g f m d :
  keeps (effect_cells g) (hook_prefix f m d).
Proof. unfold hook_prefix. destruct (nullish d); simpl; auto 8 with frame. Qed.

Lemma begin_render_keeps_registry f : keeps registry (begin_render f).
Proof. unfold begin_render. frame_by_cases. Qed.

Lemma begin_render_keeps_effect_cells g f : keeps (effect_cells g) (begin_render f).
Proof.
  intros w. unfold begin_render. rewrite exec_modify.
  destruct (fibers w !! f) as [fb|] eqn:Hf; [|done].
  unfold effect_cells. rewrite fiber_of_insert.
  destruct (decide (f = g)) as [->|]; [|done].
  by rewrite (fiber_of_lookup _ _ _ Hf).
Qed.

Lemma effect_cells_useEffect f e deps w odeps opend odestroy :
  effect_cells f w = (odeps, opend, odestroy) →
  effect_cells f (exec (useEffect f e deps) w) =
  if decide (odeps = Some deps) then (odeps, opend, odestroy)
  else (Some deps, Some e, odestroy).
Proof.
  unfold effect_cells. intros [= Hd Hp Hx].
  unfold useEffect. rewrite exec_modify. cbv zeta. rewrite Hd.
  destruct odeps as [prev|]; repeat case_decide; simplify_eq;
    rewrite ?fiber_of_insert; repeat case_decide; try done; simpl.
  by rewrite Hd.
Qed.

Lemma exec_render f m d w :
  exec (render f m d) w =
  exec (commitEffects f) (exec (useRacerState f m d) (exec (begin_render f) w)).
Proof. unfold render. by rewrite !exec_bind, exec_ret. Qed.

Lemma commitEffects_idle f w :
  effectPending (fiber_of w f) = None → exec (commitEffects f) w = w.
Proof. intros H. unfold commitEffects, exec. by rewrite H. Qed.

Lemma commitEffects_resubscribe f w r p c d0 :
  effectPending (fiber_of w f) = Some (Subscribe r p c (SetStateValue f)) →
  effectDestroy (fiber_of w f) = Some d0 →
  let m := mkModel r p c 0 in
  let w' := exec (commitEffects f) w in
  listeners w' = without d0 (listeners w) ++ [subscription_of f m w] ∧
  next_listener w' = S (next_listener w) ∧
  effectDestroy (fiber_of w' f)
    = Some (Unsubscribe (listenerModel_of m w) (next_listener w)) ∧
  effectPending (fiber_of w' f) = None ∧
  effectDeps (fiber_of w' f) = effectDeps (fiber_of w f) ∧
  stores w' = stores w.
Proof.
  intros Hp Hd. destruct d0 as [lm0 l0].
  unfold commitEffects, exec. rewrite Hp, Hd.
  cbn -[fiber_of with_fibers]. rewrite fiber_of_insert, decide_True by done.
  repeat split.
Qed.

Lemma commitEffects_subscribe f w r p c :
  effectPending (fiber_of w f) = Some (Subscribe r p c (SetStateValue f)) →
  effectDestroy (fiber_of w f) = None →
  let m := mkModel r p c 0 in
  let w' := exec (commitEffects f) w in
  listeners w' = listeners w ++ [subscription_of f m w] ∧
  next_listener w' = S (next_listener w) ∧
  effectDestroy (fiber_of w' f)
    = Some (Unsubscribe (listenerModel_of m w) (next_listener w)) ∧
  effectPending (fiber_of w' f) = None ∧
  effectDeps (fiber_of w' f) = effectDeps (fiber_of w f) ∧
  stores w' = stores w.
Proof.
  intros Hp Hd.
  unfold commitEffects, exec. rewrite Hp, Hd.
  cbn -[fiber_of with_fibers]. rewrite fiber_of_insert, decide_True by done.
  repeat split.
Qed.

Lemma registry_eq w w' :
  registry w' = registry w →
  listeners w' = listeners w ∧ next_listener w' = next_listener w ∧
  next_ident w' = next_ident w.
Proof. unfold registry. by intros [= -> -> ->]. Qed.

(** The world just before the commit of a render pass: registry and
    documents' listeners are as before the pass, and the effect cell has
    gone through [useEffect]. *)
Lemma before_commit f m d w :
  let w3 := exec (useRacerState f m d) (exec (begin_render f) w) in
  registry w3 = registry w ∧
  ∀ odeps opend odestroy,
    effect_cells f w = (odeps, opend, odestroy) →
    effect_cells f w3 =
      if decide (odeps = Some (keys_of m)) then (odeps, opend, odestroy)
      else (Some (keys_of m), Some (effect_of f m), odestroy).
Proof.
  cbv zeta. rewrite useRacerState_split. split.
  - by rewrite useEffect_keeps_registry, hook_prefix_keeps_registry,
      begin_render_keeps_registry.
  - intros odeps opend odestroy Hc. apply effect_cells_useEffect.
    by rewrite hook_prefix_keeps_effect_cells, begin_render_keeps_effect_cells.
Qed.

(** C5.  Let a component have rendered before, so that its effect cell holds
    the keys [prev] of the previous invocation and the cleanup [d0] of the
    subscription made then.  A further render with any scoped handle [m']
    (its object identity is free) leaves the registry and the cleanup as
    they are when the three keys of [m'] equal [prev]; when a key differs it
    removes the listener of [d0] and registers a new one for [m'].  In both
    cases the cell then holds the keys of [m'] for the next comparison. *)
Theorem subscription_recreated_iff_keys_differ f m' D w prev d0 :
  effect_cells f w = (Some prev, None, Some d0) →
  let w' := exec (render f m' D) w in
  listeners w' =
    (if decide (keys_of m' = prev) then listeners w
     else without d0 (listeners w) ++ [subscription_of f m' w]) ∧
  next_listener w' =
    (if decide (keys_of m' = prev) then next_listener w
     else S (next_listener w)) ∧
  effect_cells f w' =
    (Some (keys_of m'), None,
     if decide (keys_of m' = prev) then Some d0
     else Some (Unsubscribe (listenerModel_of m' w) (next_listener w))).
Proof.
  intros Hc. cbv zeta. rewrite exec_render.
  destruct (before_commit f m' D w) as [Hreg Hcells].
  specialize (Hcells _ _ _ Hc).
  set (w3 := exec (useRacerState f m' D) (exec (begin_render f) w)) in *.
  apply registry_eq in Hreg as (Hl & Hn & Hi).
  destruct (decide (keys_of m' = prev)) as [He|Hne].
  - rewrite decide_True in Hcells by congruence.
    injection Hcells as Hd Hp Hx. rewrite He.
    rewrite (commitEffects_idle f w3 Hp).
    unfold effect_cells. by rewrite Hd, Hp, Hx.
  - rewrite decide_False in Hcells by congruence.
    injection Hcells as Hd Hp Hx.
    destruct (commitEffects_resubscribe f w3 _ _ _ d0 Hp Hx)
      as (Hl' & Hn' & Hx' & Hp' & Hd' & _).
    unfold effect_cells. rewrite Hl', Hn', Hx', Hp', Hd', Hd, Hl, Hn.
    unfold subscription_of, listenerModel_of. simpl. by rewrite Hn, Hi.
Qed.

Lemma subscription_recreated_iff_keys_differ_witness :
  effect_cells 0 counter_mounted
    = (Some (keys_of counter), None, Some (Unsubscribe (mkModel 0 "_page.counter" None 1) 0)) ∧
  listeners (exec (render 0 other_counter_handle (VNum 1)) counter_mounted)
    = listeners counter_mounted ∧
  listeners (exec (render 0 message (VNum 1)) counter_mounted)
    = [subscription_of 0 message counter_mounted].
Proof.
  split; [reflexivity|].
  pose proof (subscription_recreated_iff_keys_differ 0 other_counter_handle
                (VNum 1) counter_mounted (keys_of counter) _ eq_refl) as H1.
  pose proof (subscription_recreated_iff_keys_differ 0 message
                (VNum 1) counter_mounted (keys_of counter) _ eq_refl) as H2.
  split; [apply H1 | apply H2].
Defined.

(** ** Notification of a consumer *)

Lemma exec_for_each_app {A} (l1 l2 : list A) body w :
  exec (for_each (l1 ++ l2) body) w
  = exec (for_each l2 body) (exec (for_each l1 body) w).
Proof.
  revert w. induction l1 as [|a l1 IH]; intros w; [done|].
  rewrite <- app_comm_cons, !exec_for_each_cons. apply IH.
Qed.

Lemma run_listener_not_owned f l w :
  owned_by f l = false →
  fibers (exec (run_listener l) w) !! f = fibers w !! f.
Proof.
  unfold owned_by, run_listener. destruct (l_fn l) as [[g] lm|tag]; [|done].
  intros Hg%Nat.eqb_neq. rewrite exec_bind.
  unfold dispatch. rewrite exec_modify.
  change (fibers (exec (getDeepCopy lm) w)) with (fibers w).
  destruct (fibers w !! g) eqn:E; [|done].
  unfold with_fibers; simpl. by rewrite lookup_insert_ne.
Qed.

Lemma run_listeners_not_owned f ls w :
  Forall (λ l, owned_by f l = false) ls →
  fibers (exec (for_each ls run_listener) w) !! f = fibers w !! f.
Proof.
  intros H. revert w. induction H as [|l ls Hl _ IH]; intros w; [done|].
  rewrite exec_for_each_cons, IH. by apply run_listener_not_owned.
Qed.

Lemma run_listener_owned f lm l w fb :
  l_fn l = OnModelEvent (SetStateValue f) lm →
  fibers w !! f = Some fb →
  fibers (exec (run_listener l) w) !! f
  = Some (request_render (value_at w lm) fb).
Proof.
  intros Hfn Hf. unfold run_listener. rewrite Hfn, exec_bind.
  unfold dispatch. rewrite exec_modify.
  change (fibers (exec (getDeepCopy lm) w)) with (fibers w). rewrite Hf.
  unfold with_fibers; simpl. by rewrite lookup_insert_eq.
Qed.

Lemma filter_listens_subscription r segs f m w0 :
  listens r segs (subscription_of f m w0)
  = (r =? root m)%nat && beneath (segments (path m)) segs.
Proof. unfold listens; simpl. by rewrite Nat.eqb_sym. Qed.

Lemma value_at_same_binding w m lm :
  root lm = root m → path lm = path m → value_at w lm = value_at w m.
Proof. unfold value_at. by intros -> ->. Qed.

(** Emitting a mutation in a world whose registry ends with the
    subscription of [f], no earlier entry being owned by [f]. *)
Lemma emitMutation_consumer f m w0 r segs w fb :
  Forall (λ l, owned_by f l = false) (listeners w0) →
  listeners w = listeners w0 ++ [subscription_of f m w0] →
  fibers w !! f = Some fb →
  fibers (exec (emitMutation r segs) w) !! f =
  if (r =? root m)%nat && beneath (segments (path m)) segs
  then Some (request_render (value_at w m) fb)
  else Some fb.
Proof.
  intros Hothers Hl Hf. rewrite exec_emitMutation, Hl, List.filter_app.
  rewrite exec_for_each_app.
  assert (Hpre : Forall (λ l, owned_by f l = false)
                   (List.filter (listens r segs) (listeners w0))).
  { rewrite Forall_forall in Hothers |- *. intros l Hin.
    apply list_elem_of_In, filter_In in Hin as [Hin _].
    by apply Hothers, list_elem_of_In. }
  set (w1 := exec (for_each (List.filter (listens r segs) (listeners w0))
                     run_listener) w).
  assert (Hf1 : fibers w1 !! f = Some fb).
  { unfold w1. by rewrite run_listeners_not_owned. }
  assert (Hs1 : stores w1 = stores w).
  { unfold w1. apply keeps_for_each. auto with frame. }
  simpl. rewrite filter_listens_subscription.
  destruct ((r =? root m)%nat && beneath (segments (path m)) segs).
  - rewrite exec_for_each_cons. simpl. rewrite exec_ret.
    rewrite (run_listener_owned f (listenerModel_of m w0) _ _ fb); [|done|done].
    rewrite (value_at_same_binding _ m) by done.
    by rewrite (value_at_stores w).
  - done.
Qed.

Lemma commitEffects_present f w e :
  effectPending (fiber_of w f) = Some e →
  is_Some (fibers (exec (commitEffects f) w) !! f).
Proof.
  intros Hp. unfold commitEffects, exec. rewrite Hp.
  destruct e as [r p c s].
  destruct (effectDestroy (fiber_of w f)) as [[lm0 l0]|];
    cbn -[fiber_of]; rewrite lookup_insert_eq; eauto.
Qed.

Lemma fresh_effect_cells f w :
  fibers w !! f = None → effect_cells f w = (None, None, None).
Proof. unfold effect_cells, fiber_of. by intros ->. Qed.

(** The first render of a component instance appends its subscription to
    the registry and leaves the instance mounted. *)
Lemma first_render f m d w0 :
  fibers w0 !! f = None →
  let w := exec (render f m d) w0 in
  listeners w = listeners w0 ++ [subscription_of f m w0] ∧
  next_listener w = S (next_listener w0) ∧
  is_Some (fibers w !! f) ∧
  effect_cells f w =
    (Some (keys_of m), None,
     Some (Unsubscribe (listenerModel_of m w0) (next_listener w0))).
Proof.
  intros Hfresh. cbv zeta. rewrite exec_render.
  destruct (before_commit f m d w0) as [Hreg Hcells].
  specialize (Hcells _ _ _ (fresh_effect_cells _ _ Hfresh)).
  set (w3 := exec (useRacerState f m d) (exec (begin_render f) w0)) in *.
  apply registry_eq in Hreg as (Hl & Hn & Hi).
  rewrite decide_False in Hcells by done.
  injection Hcells as Hd Hp Hx.
  destruct (commitEffects_subscribe f w3 _ _ _ Hp Hx)
    as (Hl' & Hn' & Hx' & Hp' & Hd' & _).
  repeat split.
  - rewrite Hl', Hl. unfold subscription_of, listenerModel_of; simpl.
    by rewrite Hn, Hi.
  - by rewrite Hn', Hn.
  - by apply commitEffects_present with (effect_of f m).
  - unfold effect_cells. rewrite Hx', Hp', Hd', Hd.
    unfold listenerModel_of; simpl. by rewrite Hn, Hi.
Qed.

Lemma exec_mutate q mu w :
  ∃ w1, exec (mutate q mu) w = exec (emitMutation (root q) (segments (path q))) w1
        ∧ listeners w1 = listeners w ∧ fibers w1 = fibers w.
Proof.
  destruct mu as [v|]; simpl.
  - unfold set. rewrite !exec_bind. eexists. split; [reflexivity|]. done.
  - unfold del. rewrite !exec_bind. eexists. split; [reflexivity|]. done.
Qed.

(** C6.  A consumer [f] mounts on the handle [m] in a world where it had no
    listener.  A later mutation made through any handle [q] runs the
    consumer's callback, once, exactly when [q] addresses the path of [m] or
    a path beneath it in the same root model: the callback stores the value
    now at the path of [m] and requests a re-render.  A mutation anywhere
    else, in particular at a path disjoint from that of [m], leaves the
    consumer as it was: no callback, no re-render request. *)
Theorem consumer_notified_iff_at_or_beneath f m D w0 q mu :
  fibers w0 !! f = None →
  Forall (λ l, owned_by f l = false) (listeners w0) →
  let w := exec (render f m D) w0 in
  let w' := exec (mutate q mu) w in
  fiber_of w' f =
    (if at_or_beneath m q
     then request_render (value_at w' m) (fiber_of w f)
     else fiber_of w f) ∧
  (disjoint_paths (segments (path m)) (segments (path q)) = true →
   fiber_of w' f = fiber_of w f ∧
   dispatches (fiber_of w' f) = dispatches (fiber_of w f)) ∧
  (at_or_beneath m q = true →
   dispatches (fiber_of w' f) = S (dispatches (fiber_of w f)) ∧
   scheduled (fiber_of w' f) = true).
Proof.
  intros Hfresh Hothers. cbv zeta.
  destruct (first_render f m D w0 Hfresh) as (Hl & _ & [fb Hfb] & _).
  set (w := exec (render f m D) w0) in *.
  destruct (exec_mutate q mu w) as (w1 & Hw' & Hl1 & Hf1).
  assert (Hfib : fibers (exec (mutate q mu) w) !! f =
                 if at_or_beneath m q
                 then Some (request_render (value_at (exec (mutate q mu) w) m) fb)
                 else Some fb).
  { rewrite Hw'.
    rewrite (emitMutation_consumer f m w0 _ _ w1 fb); [|done|congruence|congruence].
    unfold at_or_beneath.
    destruct ((root q =? root m)%nat && beneath _ _); [|done].
    do 2 f_equal. symmetry. apply value_at_stores, emitMutation_keeps_stores. }
  assert (Hmain : fiber_of (exec (mutate q mu) w) f =
                  if at_or_beneath m q
                  then request_render (value_at (exec (mutate q mu) w) m)
                         (fiber_of w f)
                  else fiber_of w f).
  { unfold fiber_of at 1. rewrite Hfib, (fiber_of_lookup _ _ _ Hfb).
    by destruct (at_or_beneath m q). }
  split; [done|]. split.
  - intros Hdis. unfold disjoint_paths in Hdis.
    apply andb_true_iff in Hdis as [Hnb%negb_true_iff _].
    unfold at_or_beneath in Hmain. rewrite Hnb, andb_false_r in Hmain.
    by rewrite Hmain.
  - intros Hhit. rewrite Hhit in Hmain. by rewrite Hmain.
Qed.

Lemma consumer_notified_iff_at_or_beneath_witness :
  fiber_of (exec (mutate message (MSet (VStr "hello"))) counter_mounted) 0
    = fiber_of counter_mounted 0 ∧
  dispatches (fiber_of (exec (mutate counter (MSet (VNum 2))) counter_mounted) 0)
    = S (dispatches (fiber_of counter_mounted 0)).
Proof.
  pose proof (consumer_notified_iff_at_or_beneath 0 counter (VNum 1) empty_world
                message (MSet (VStr "hello")) eq_refl (Forall_nil_2 _))
    as (_ & Hsibling & _).
  pose proof (consumer_notified_iff_at_or_beneath 0 counter (VNum 1) empty_world
                counter (MSet (VNum 2)) eq_refl (Forall_nil_2 _))
    as (_ & _ & Hsame).
  split; [apply Hsibling | apply Hsame]; reflexivity.
Defined.

(** ** The registry over the life of the components *)

Lemma elem_of_filter_bool {A} (P : A → bool) (l : list A) x :
  x ∈ List.filter P l ↔ x ∈ l ∧ P x = true.
Proof. by rewrite !list_elem_of_In, filter_In. Qed.

Lemma filter_bool_all {A} (P : A → bool) (l : list A) :
  (∀ x, x ∈ l → P x = true) → List.filter P l = l.
Proof.
  induction l as [|a l IH]; intros H; simpl; [done|].
  rewrite (H a) by apply list_elem_of_here.
  f_equal. apply IH. intros x Hx. apply H. by apply list_elem_of_further.
Qed.

Lemma NoDup_ids_filter (P : Listener → bool) ls :
  NoDup (l_id <$> ls) → NoDup (l_id <$> List.filter P ls).
Proof.
  induction ls as [|a ls IH]; simpl; [done|].
  rewrite NoDup_cons. intros [Hnotin Hnd].
  destruct (P a); [|by apply IH].
  rewrite fmap_cons, NoDup_cons. split; [|by apply IH].
  intros (x & Hid & Hx)%list_elem_of_fmap.
  apply elem_of_filter_bool in Hx as [Hx _].
  apply Hnotin, list_elem_of_fmap. eauto.
Qed.

Lemma same_id_same_listener ls l1 l2 :
  NoDup (l_id <$> ls) → l1 ∈ ls → l2 ∈ ls → l_id l1 = l_id l2 → l1 = l2.
Proof.
  induction ls as [|a ls IH]; [by intros _ ?%not_elem_of_nil|].
  rewrite fmap_cons, NoDup_cons. intros [Hnotin Hnd] H1 H2 Hid.
  apply elem_of_cons in H1 as [->|H1], H2 as [->|H2]; [done| | |by apply IH].
  - exfalso. apply Hnotin, list_elem_of_fmap. eauto.
  - exfalso. apply Hnotin, list_elem_of_fmap. eauto.
Qed.

Lemma without_unique lm id pre l post :
  NoDup (l_id <$> (pre ++ l :: post)) →
  l_root l = root lm → l_id l = id →
  without (Unsubscribe lm id) (pre ++ l :: post) = pre ++ post.
Proof.
  intros Hnd Hr Hid. unfold without.
  assert (Hkeep : ∀ x, x ∈ pre ++ post →
                       negb (is_listener (root lm) id x) = true).
  { intros x Hx. apply negb_true_iff, not_true_iff_false.
    unfold is_listener. rewrite andb_true_iff, !Nat.eqb_eq. intros [_ Hx_id].
    rewrite fmap_app, fmap_cons in Hnd.
    apply NoDup_app in Hnd as (_ & Hdisj & Hnd).
    apply NoDup_cons in Hnd as [Hpost _].
    apply elem_of_app in Hx as [Hx|Hx].
    - apply (Hdisj (l_id x)); [apply list_elem_of_fmap; eauto|].
      rewrite Hx_id, <- Hid. apply list_elem_of_here.
    - apply Hpost. rewrite Hid, <- Hx_id. apply list_elem_of_fmap; eauto. }
  rewrite List.filter_app. simpl.
  unfold is_listener at 2. rewrite Hr, Hid, !Nat.eqb_refl. simpl.
  rewrite <- List.filter_app. by apply filter_bool_all.
Qed.

Lemma registry_inv_ext ls n c c' :
  (∀ f, c' f = c f) → registry_inv ls n c → registry_inv ls n c'.
Proof.
  intros Hext [Hb Hnd Hl Hc]. split; [done|done| |].
  - intros l f lm Hin Hfn. rewrite Hext. eauto.
  - intros f lm id. rewrite Hext. eauto.
Qed.

(** Running the cleanup closure of [f] keeps the registry consistent. *)
Lemma registry_inv_teardown ls n c f :
  registry_inv ls n c →
  registry_inv (without_opt (c f) ls) n
               (λ g, if decide (g = f) then None else c g).
Proof.
  intros Hinv. destruct (c f) as [[lm id]|] eqn:Hcf; simpl.
  - destruct Hinv as [Hb Hnd Hl Hc]. split.
    + intros l [Hin _]%elem_of_filter_bool. auto.
    + by apply NoDup_ids_filter.
    + intros l g lm' [Hin Hkeep]%elem_of_filter_bool Hfn.
      destruct (Hl l g lm' Hin Hfn) as [Hcg Hroot].
      destruct (decide (g = f)) as [->|Hne]; [|done].
      rewrite Hcf in Hcg. injection Hcg as -> ->.
      unfold is_listener in Hkeep. by rewrite Hroot, !Nat.eqb_refl in Hkeep.
    + intros g lm' id'. destruct (decide (g = f)) as [->|Hne]; [done|].
      intros Hcg. destruct (Hc g lm' id' Hcg) as (l & Hin & Hid & Hroot & Hfn).
      exists l. split; [|done]. apply elem_of_filter_bool. split; [done|].
      apply negb_true_iff, not_true_iff_false.
      unfold is_listener. rewrite andb_true_iff, !Nat.eqb_eq. intros [_ Hsame].
      destruct (Hc f lm id Hcf) as (lf & Hinf & Hidf & _ & Hfnf).
      assert (l = lf) as -> by
        (apply (same_id_same_listener ls); [done|done|done|congruence]).
      congruence.
  - eapply registry_inv_ext; [|exact Hinv].
    intros g. simpl. destruct (decide (g = f)) as [->|]; done.
Qed.

(** Registering the hook's listener for a component that holds no cleanup
    closure keeps the registry consistent. *)
Lemma registry_inv_setup ls n c f lm segs ctx :
  registry_inv ls n c →
  c f = None →
  registry_inv
    (ls ++ [mkListener n (root lm) segs ctx (OnModelEvent (SetStateValue f) lm)])
    (S n)
    (λ g, if decide (g = f) then Some (Unsubscribe lm n) else c g).
Proof.
  intros [Hb Hnd Hl Hc] Hcf. split.
  - intros l [Hin| ->%list_elem_of_singleton]%elem_of_app; simpl; [|lia].
    specialize (Hb l Hin). lia.
  - rewrite fmap_app. apply NoDup_app. split; [done|]. split.
    + intros x (l & -> & Hin)%list_elem_of_fmap Hx. simpl in Hx.
      apply list_elem_of_singleton in Hx. specialize (Hb l Hin). lia.
    + simpl. apply NoDup_singleton.
  - intros l g lm' [Hin| ->%list_elem_of_singleton]%elem_of_app Hfn.
    + destruct (Hl l g lm' Hin Hfn) as [Hcg Hroot].
      destruct (decide (g = f)) as [->|Hne]; [congruence|done].
    + simpl in Hfn. injection Hfn as <- <-. by rewrite decide_True.
  - intros g lm' id'. destruct (decide (g = f)) as [->|Hne].
    + intros [= <- <-].
      exists (mkListener n (root lm) segs ctx (OnModelEvent (SetStateValue f) lm)).
      split; [|done].
      apply elem_of_app. right. by apply list_elem_of_singleton.
    + intros Hcg. destruct (Hc g lm' id' Hcg) as (l & Hin & ?).
      exists l. split; [|done]. apply elem_of_app. by left.
Qed.

(** So does a listener registered by other code. *)
Lemma registry_inv_foreign ls n c r segs ctx tag :
  registry_inv ls n c →
  registry_inv (ls ++ [mkListener n r segs ctx (Foreign tag)]) (S n) c.
Proof.
  intros [Hb Hnd Hl Hc]. split.
  - intros l [Hin| ->%list_elem_of_singleton]%elem_of_app; simpl; [|lia].
    specialize (Hb l Hin). lia.
  - rewrite fmap_app. apply NoDup_app. split; [done|]. split.
    + intros x (l & -> & Hin)%list_elem_of_fmap Hx. simpl in Hx.
      apply list_elem_of_singleton in Hx. specialize (Hb l Hin). lia.
    + simpl. apply NoDup_singleton.
  - intros l g lm' [Hin| ->%list_elem_of_singleton]%elem_of_app Hfn; [eauto|done].
  - intros g lm' id' Hcg. destruct (Hc g lm' id' Hcg) as (l & Hin & ?).
    exists l. split; [|done]. apply elem_of_app. by left.
Qed.

Lemma useEffect_keeps_other_cells g f e d :
  g ≠ f → keeps (effect_cells g) (useEffect f e d).
Proof.
  intros Hne w. unfold useEffect. rewrite exec_modify. cbv zeta.
  destruct (effectDeps (fiber_of w f)); [case_decide; [done|]|];
    unfold effect_cells; rewrite fiber_of_insert; by rewrite decide_False.
Qed.

Lemma fiber_of_delete w f g :
  fiber_of (with_fibers (delete f) w) g
  = if decide (g = f) then fresh_fiber else fiber_of w g.
Proof.
  unfold fiber_of, with_fibers; simpl. rewrite lookup_delete.
  destruct (decide (f = g)) as [->|Hne].
  - by rewrite decide_True.
  - by rewrite decide_False by congruence.
Qed.

Lemma unmount_spec f w :
  let w' := exec (unmount f) w in
  listeners w' = without_opt (cleanup_of w f) (listeners w) ∧
  next_listener w' = next_listener w ∧
  stores w' = stores w ∧
  ∀ g, fiber_of w' g = if decide (g = f) then fresh_fiber else fiber_of w g.
Proof.
  cbv zeta. unfold unmount, exec, cleanup_of.
  destruct (effectDestroy (fiber_of w f)) as [[lm id]|];
    cbn -[fiber_of with_fibers]; repeat split; intros g;
    by rewrite fiber_of_delete.
Qed.

Lemma commitEffects_spec f w r p c :
  effectPending (fiber_of w f) = Some (Subscribe r p c (SetStateValue f)) →
  let m := mkModel r p c 0 in
  let w' := exec (commitEffects f) w in
  listeners w' =
    without_opt (cleanup_of w f) (listeners w) ++ [subscription_of f m w] ∧
  next_listener w' = S (next_listener w) ∧
  (∀ g, cleanup_of w' g =
        if decide (g = f)
        then Some (Unsubscribe (listenerModel_of m w) (next_listener w))
        else cleanup_of w g) ∧
  (∀ g, effectPending (fiber_of w' g) =
        if decide (g = f) then None else effectPending (fiber_of w g)).
Proof.
  intros Hp. cbv zeta. unfold commitEffects, exec, cleanup_of. rewrite Hp.
  destruct (effectDestroy (fiber_of w f)) as [[lm id]|];
    cbn -[fiber_of with_fibers]; repeat split; intros g;
    rewrite !fiber_of_insert;
    destruct (decide (f = g)) as [->|Hne];
    rewrite ?decide_True by done; rewrite ?decide_False by congruence; done.
Qed.

Lemma consistent_frame w w' :
  registry w' = registry w →
  (∀ f, effect_cells f w' = effect_cells f w) →
  consistent w → consistent w'.
Proof.
  intros (Hl & Hn & _)%registry_eq Hcells [Hinv Hpend].
  assert (Hc : ∀ f, cleanup_of w' f = cleanup_of w f).
  { intros f. specialize (Hcells f). unfold effect_cells in Hcells.
    unfold cleanup_of. congruence. }
  split.
  - rewrite Hl, Hn. by apply registry_inv_ext with (cleanup_of w).
  - intros f. specialize (Hcells f). unfold effect_cells in Hcells.
    rewrite <- (Hpend f). congruence.
Qed.

Lemma consistent_empty : consistent empty_world.
Proof.
  split; [split|done]; simpl.
  - by intros l ?%not_elem_of_nil.
  - apply NoDup_nil_2.
  - by intros l f lm ?%not_elem_of_nil.
  - intros f lm id. by unfold cleanup_of, fiber_of.
Qed.

Lemma consistent_mutate q mu w : consistent w → consistent (exec (mutate q mu) w).
Proof.
  apply consistent_frame.
  - destruct mu; simpl; [apply set_keeps_registry | apply del_keeps_registry].
  - intros f. destruct mu; simpl;
      [apply set_keeps_effect_cells | apply del_keeps_effect_cells].
Qed.

Lemma consistent_setter s v w :
  consistent w → consistent (exec (setModelValue s v) w).
Proof.
  destruct s as [m]. simpl. apply consistent_frame.
  - apply set_keeps_registry.
  - intros f. apply set_keeps_effect_cells.
Qed.

Lemma consistent_foreign q tag w :
  consistent w → consistent (exec (on q (Foreign tag)) w).
Proof.
  intros [Hinv Hpend]. split; [|done].
  by apply registry_inv_foreign.
Qed.

Lemma consistent_unmount f w : consistent w → consistent (exec (unmount f) w).
Proof.
  intros [Hinv Hpend].
  destruct (unmount_spec f w) as (Hl & Hn & _ & Hf).
  split.
  - rewrite Hl, Hn.
    eapply registry_inv_ext; [|by apply (registry_inv_teardown _ _ _ f)].
    intros g. unfold cleanup_of. rewrite Hf. by destruct (decide (g = f)).
  - intros g. rewrite Hf. by destruct (decide (g = f)).
Qed.

Lemma consistent_render f m d w :
  consistent w → consistent (exec (render f m d) w).
Proof.
  intros Hcons. rewrite exec_render.
  destruct (before_commit f m d w) as [Hreg Hcells].
  set (w3 := exec (useRacerState f m d) (exec (begin_render f) w)) in *.
  assert (Hother : ∀ g, g ≠ f → effect_cells g w3 = effect_cells g w).
  { intros g Hne. unfold w3. rewrite useRacerState_split.
    by rewrite (useEffect_keeps_other_cells g f), hook_prefix_keeps_effect_cells,
      begin_render_keeps_effect_cells. }
  destruct Hcons as [Hinv Hpend].
  specialize (Hcells _ _ _ eq_refl). rewrite (Hpend f) in Hcells.
  assert (Hc3 : ∀ g, cleanup_of w3 g = cleanup_of w g).
  { intros g. destruct (decide (g = f)) as [->|Hne].
    - unfold cleanup_of. unfold effect_cells in Hcells at 1.
      destruct (decide (_ = _)); by injection Hcells as _ _ ->.
    - specialize (Hother g Hne). unfold effect_cells in Hother.
      unfold cleanup_of. congruence. }
  apply registry_eq in Hreg as (Hl & Hn & Hi).
  unfold effect_cells in Hcells at 1.
  destruct (decide (effectDeps (fiber_of w f) = Some (keys_of m))) as [Heq|Hne].
  - rewrite decide_True in Hcells by done.
    injection Hcells as Hd Hp Hx.
    rewrite (commitEffects_idle f w3 Hp).
    split.
    + rewrite Hl, Hn. by apply registry_inv_ext with (cleanup_of w).
    + intros g. destruct (decide (g = f)) as [->|Hgf]; [done|].
      specialize (Hother g Hgf). unfold effect_cells in Hother.
      rewrite <- (Hpend g). congruence.
  - rewrite decide_False in Hcells by done.
    injection Hcells as Hd Hp Hx.
    destruct (commitEffects_spec f w3 _ _ _ Hp) as (Hl' & Hn' & Hc' & Hp').
    split.
    + assert (Hinv3 : registry_inv (listeners w3) (next_listener w3)
                                   (cleanup_of w3)).
      { rewrite Hl, Hn. by apply registry_inv_ext with (cleanup_of w). }
      rewrite Hl', Hn'.
      pose proof (registry_inv_teardown _ _ _ f Hinv3) as Ht.
      assert (Hs := registry_inv_setup _ _ _ f
                (listenerModel_of (mkModel (root m) (path m) (_eventContext m) 0) w3)
                (segments (path m)) (_eventContext m) Ht).
      cbv beta in Hs. rewrite decide_True in Hs by done.
      specialize (Hs eq_refl).
      eapply registry_inv_ext; [|exact Hs].
      intros g. rewrite Hc'. simpl. by destruct (decide (g = f)).
    + intros g. rewrite Hp'. destruct (decide (g = f)) as [->|Hgf]; [done|].
      specialize (Hother g Hgf). unfold effect_cells in Hother.
      rewrite <- (Hpend g). congruence.
Qed.

Lemma consistent_step s w : consistent w → consistent (exec (run_step s) w).
Proof.
  destruct s; simpl; rewrite ?exec_bind, ?exec_ret.
  - apply consistent_render.
  - apply consistent_unmount.
  - apply consistent_mutate.
  - apply consistent_setter.
  - apply consistent_foreign.
Qed.

Lemma consistent_run steps w : consistent w → consistent (run steps w).
Proof.
  unfold run. revert w. induction steps as [|s steps IH]; intros w Hw; [done|].
  rewrite exec_for_each_cons. by apply IH, consistent_step.
Qed.

Lemma owned_by_true f l :
  owned_by f l = true → ∃ lm, l_fn l = OnModelEvent (SetStateValue f) lm.
Proof.
  unfold owned_by. destruct (l_fn l) as [[g] lm|]; [|done].
  intros ->%Nat.eqb_eq. eauto.
Qed.

(** The registry after a render pass, whatever the effect cell held. *)
Lemma render_listeners f m d w odeps od :
  effect_cells f w = (odeps, None, od) →
  listeners (exec (render f m d) w) =
  if decide (odeps = Some (keys_of m)) then listeners w
  else without_opt od (listeners w) ++ [subscription_of f m w].
Proof.
  intros Hc. rewrite exec_render.
  destruct (before_commit f m d w) as [Hreg Hcells].
  specialize (Hcells _ _ _ Hc).
  set (w3 := exec (useRacerState f m d) (exec (begin_render f) w)) in *.
  apply registry_eq in Hreg as (Hl & Hn & Hi).
  unfold effect_cells in Hcells at 1.
  destruct (decide (odeps = Some (keys_of m))) as [Heq|Hne].
  - injection Hcells as Hd Hp Hx. by rewrite (commitEffects_idle f w3 Hp).
  - injection Hcells as Hd Hp Hx.
    destruct (commitEffects_spec f w3 _ _ _ Hp) as (Hl' & _).
    rewrite Hl'. unfold cleanup_of. rewrite Hx, Hl.
    unfold subscription_of, listenerModel_of. simpl. by rewrite Hn, Hi.
Qed.

(** In a consistent world the listener named by the cleanup closure of [f]
    splits the registry, and nothing else in it belongs to [f]. *)
Lemma own_listener_split w f lm id :
  consistent w →
  cleanup_of w f = Some (Unsubscribe lm id) →
  ∃ pre l post,
    listeners w = pre ++ l :: post ∧
    l_id l = id ∧ l_root l = root lm ∧
    l_fn l = OnModelEvent (SetStateValue f) lm ∧
    Forall (λ x, owned_by f x = false) (pre ++ post).
Proof.
  intros [[Hb Hnd Hl Hc] _] Hcf.
  destruct (Hc f lm id Hcf) as (l & Hin & Hid & Hroot & Hfn).
  destruct (list_elem_of_split _ _ Hin) as (pre & post & Hsplit).
  exists pre, l, post. repeat split; try done.
  apply Forall_forall. intros x Hx.
  destruct (owned_by f x) eqn:Hown; [exfalso|done].
  apply owned_by_true in Hown as [lm' Hfn'].
  assert (Hxin : x ∈ listeners w).
  { rewrite Hsplit, elem_of_app, elem_of_cons.
    apply elem_of_app in Hx as [?|?]; auto. }
  destruct (Hl x f lm' Hxin Hfn') as [Hcx _].
  rewrite Hcf in Hcx. injection Hcx as _ Hidx.
  rewrite Hsplit, fmap_app, fmap_cons in Hnd.
  apply NoDup_app in Hnd as (_ & Hdisj & Hnd).
  apply NoDup_cons in Hnd as [Hpost _].
  apply elem_of_app in Hx as [Hx|Hx].
  - apply (Hdisj (l_id x)); [apply list_elem_of_fmap; eauto|].
    rewrite <- Hidx, <- Hid. apply list_elem_of_here.
  - apply Hpost. rewrite Hid, Hidx. apply list_elem_of_fmap; eauto.
Qed.

Lemma no_cleanup_no_listener w f :
  consistent w →
  cleanup_of w f = None →
  Forall (λ x, owned_by f x = false) (listeners w).
Proof.
  intros [[_ _ Hl _] _] Hcf. apply Forall_forall. intros x Hx.
  destruct (owned_by f x) eqn:Hown; [exfalso|done].
  apply owned_by_true in Hown as [lm Hfn].
  destruct (Hl x f lm Hx Hfn) as [Hcx _]. congruence.
Qed.

(** C7.  In every world a history of renders, unmounts, mutations, setter
    calls and foreign registrations leads to: a component that holds no
    cleanup closure has no listener in the registry; and for a component
    [f] that holds one, the registry is [pre ++ l :: post] where [l] is the
    listener the matching setup registered for [f] and nothing in [pre] or
    [post] belongs to [f].  Running the closure, discarding the component,
    and rendering it with changed keys each remove [l] and nothing else:
    [pre] and [post] stay, in order. *)
Theorem teardown_removes_exactly_own_listener steps f :
  let w := run steps empty_world in
  (cleanup_of w f = None →
   Forall (λ x, owned_by f x = false) (listeners w)) ∧
  (∀ lm id,
     cleanup_of w f = Some (Unsubscribe lm id) →
     ∃ pre l post,
       listeners w = pre ++ l :: post ∧
       l_id l = id ∧
       l_fn l = OnModelEvent (SetStateValue f) lm ∧
       Forall (λ x, owned_by f x = false) (pre ++ post) ∧
       listeners (exec (run_destroy (Unsubscribe lm id)) w) = pre ++ post ∧
       listeners (exec (unmount f) w) = pre ++ post ∧
       cleanup_of (exec (unmount f) w) f = None ∧
       ∀ m' D,
         effectDeps (fiber_of w f) ≠ Some (keys_of m') →
         listeners (exec (render f m' D) w)
         = pre ++ post ++ [subscription_of f m' w]).
Proof.
  cbv zeta.
  pose proof (consistent_run steps empty_world consistent_empty) as Hcons.
  set (w := run steps empty_world) in *.
  split; [by apply no_cleanup_no_listener|].
  intros lm id Hcf.
  destruct (own_listener_split w f lm id Hcons Hcf)
    as (pre & l & post & Hsplit & Hid & Hroot & Hfn & Hrest).
  assert (Hwithout : without (Unsubscribe lm id) (listeners w) = pre ++ post).
  { rewrite Hsplit. apply without_unique; [|done|done].
    rewrite <- Hsplit. by destruct Hcons as [[]]. }
  exists pre, l, post. repeat split; try done.
  - destruct (unmount_spec f w) as (Hl & _). by rewrite Hl, Hcf.
  - destruct (unmount_spec f w) as (_ & _ & _ & Hf).
    unfold cleanup_of. rewrite Hf. by rewrite decide_True.
  - intros m' D Hne.
    rewrite (render_listeners f m' D w (effectDeps (fiber_of w f))
               (Some (Unsubscribe lm id))).
    + rewrite decide_False by done. simpl in Hwithout |- *.
      by rewrite Hwithout, app_assoc.
    + unfold effect_cells. destruct Hcons as [_ Hpend].
      by rewrite Hpend, <- Hcf.
Qed.

Lemma teardown_removes_exactly_own_listener_witness :
  ∃ pre l post,
    listeners (run page_history empty_world) = pre ++ l :: post ∧
    l_id l = 0%nat ∧
    Forall (λ x, owned_by 0 x = false) (pre ++ post) ∧
    listeners (exec (unmount 0) (run page_history empty_world)) = pre ++ post.
Proof.
  destruct (proj2 (teardown_removes_exactly_own_listener page_history 0)
              (mkModel 0 "_page.counter" None 1) 0%nat eq_refl)
    as (pre & l & post & Hsplit & Hid & _ & Hrest & _ & Hunmount & _).
  exists pre, l, post. auto.
Defined.

(** * Properties of the mount adapter *)

Section MountAdapterProofs.

Variable createRoot_throws : Container → RootOptions → bool.
Variable render_throws : ReactNode → bool.

Abbreviation mount := (renderReactComponent createRoot_throws render_throws).
Abbreviation step := (page_step createRoot_throws render_throws).
Abbreviation steps_run := (page_run createRoot_throws render_throws).

(** The three outcomes of a call of the adapter. *)
Lemma mount_outcome c d node o p :
  mount c d node o p =
  if createRoot_throws d o then (Throw "createRoot", p)
  else
    let r := next_root p in
    let ls := componentListeners p ++ [(c, "destroy", UnmountRoot r)] in
    let created := <[r := mkReactRoot d o None false]> (reactRoots p) in
    if render_throws node
    then (Throw "render", mkPage created (S r) ls)
    else (Normal {| reactRoot := r |},
          mkPage (<[r := mkReactRoot d o (Some node) false]> created) (S r) ls).
Proof.
  unfold renderReactComponent, bindE, createRoot, component_on, root_render.
  destruct (createRoot_throws d o); [done|]. simpl.
  rewrite lookup_insert_eq. simpl.
  by destruct (render_throws node).
Qed.

Lemma run_callbacks_cons cb cbs p :
  snd (run_callbacks (cb :: cbs) p) = snd (run_callbacks cbs (snd (run_callback cb p))).
Proof.
  simpl. unfold bindE.
  destruct cb as [r|tag]; simpl; [|done].
  unfold root_unmount. by destruct (reactRoots p !! r).
Qed.

Lemma run_callback_listeners cb p :
  componentListeners (snd (run_callback cb p)) = componentListeners p ∧
  next_root (snd (run_callback cb p)) = next_root p.
Proof.
  destruct cb as [r|tag]; simpl; [|done].
  unfold root_unmount. by destruct (reactRoots p !! r).
Qed.

Lemma run_callbacks_listeners cbs p :
  componentListeners (snd (run_callbacks cbs p)) = componentListeners p ∧
  next_root (snd (run_callbacks cbs p)) = next_root p.
Proof.
  revert p. induction cbs as [|cb cbs IH]; intros p; [done|].
  rewrite run_callbacks_cons.
  destruct (IH (snd (run_callback cb p))) as [-> ->].
  apply run_callback_listeners.
Qed.

Lemma run_callback_other cb r p :
  cb ≠ UnmountRoot r →
  reactRoots (snd (run_callback cb p)) !! r = reactRoots p !! r.
Proof.
  destruct cb as [r'|tag]; simpl; [|done]. intros Hne.
  unfold root_unmount. destruct (reactRoots p !! r') eqn:E; [|done]. simpl.
  apply lookup_insert_ne. congruence.
Qed.

Lemma run_callbacks_other cbs r p :
  UnmountRoot r ∉ cbs →
  reactRoots (snd (run_callbacks cbs p)) !! r = reactRoots p !! r.
Proof.
  revert p. induction cbs as [|cb cbs IH]; intros p Hnotin; [done|].
  apply not_elem_of_cons in Hnotin as [Hne Hnotin].
  rewrite run_callbacks_cons, IH by done. by apply run_callback_other.
Qed.

Lemma run_callback_unmounted cb r p :
  root_is_unmounted p r → root_is_unmounted (snd (run_callback cb p)) r.
Proof.
  intros (rt & Hrt & Hun). destruct cb as [r'|tag]; simpl; [|by exists rt].
  unfold root_unmount. destruct (reactRoots p !! r') as [rt'|] eqn:E;
    [|by exists rt].
  simpl. unfold root_is_unmounted; simpl.
  destruct (decide (r' = r)) as [->|Hne].
  - rewrite lookup_insert_eq. eauto.
  - rewrite lookup_insert_ne by done. eauto.
Qed.

Lemma run_callbacks_unmounted cbs r p :
  root_is_unmounted p r → root_is_unmounted (snd (run_callbacks cbs p)) r.
Proof.
  revert p. induction cbs as [|cb cbs IH]; intros p H; [done|].
  rewrite run_callbacks_cons. by apply IH, run_callback_unmounted.
Qed.

Lemma run_callbacks_unmounts cbs r p :
  UnmountRoot r ∈ cbs →
  is_Some (reactRoots p !! r) →
  root_is_unmounted (snd (run_callbacks cbs p)) r.
Proof.
  revert p. induction cbs as [|cb cbs IH]; intros p Hin [rt Hrt];
    [by apply not_elem_of_nil in Hin|].
  rewrite run_callbacks_cons.
  apply elem_of_cons in Hin as [<-|Hin].
  - apply run_callbacks_unmounted. simpl. unfold root_unmount. rewrite Hrt.
    unfold root_is_unmounted; simpl. rewrite lookup_insert_eq. eauto.
  - destruct (decide (cb = UnmountRoot r)) as [->|Hne].
    + apply run_callbacks_unmounted. simpl. unfold root_unmount. rewrite Hrt.
      unfold root_is_unmounted; simpl. rewrite lookup_insert_eq. eauto.
    + apply IH; [done|]. rewrite run_callback_other by done. eauto.
Qed.

Lemma elem_of_callbacks_for c name ls cb :
  cb ∈ callbacks_for c name ls ↔ (c, name, cb) ∈ ls.
Proof.
  unfold callbacks_for. rewrite list_elem_of_omap. split.
  - intros ([[c' name'] cb'] & Hin & Heq).
    destruct (decide (c' = c ∧ name' = name)) as [[-> ->]|]; [|done].
    by injection Heq as ->.
  - intros Hin. exists (c, name, cb). split; [done|].
    by rewrite decide_True.
Qed.

(** ** Steps of a page and the guard of a mounted root *)

Lemma emit_listeners c name p :
  componentListeners (snd (emit c name p)) = componentListeners p ∧
  next_root (snd (emit c name p)) = next_root p.
Proof. unfold emit. apply run_callbacks_listeners. Qed.

Lemma mount_page c d node o p :
  let p' := snd (mount c d node o p) in
  p' = p ∨
  (componentListeners p' =
     componentListeners p ++ [(c, "destroy", UnmountRoot (next_root p))] ∧
   next_root p' = S (next_root p) ∧
   ∀ r, r ≠ next_root p → reactRoots p' !! r = reactRoots p !! r).
Proof.
  cbv zeta. rewrite mount_outcome.
  destruct (createRoot_throws d o); [by left|]. right.
  destruct (render_throws node); simpl; repeat split; intros r Hr;
    by rewrite ?lookup_insert_ne by done.
Qed.

Lemma guarded_extend c r p entry ls' n' :
  guarded c r p →
  ls' = componentListeners p ++ [entry] →
  (next_root p ≤ n')%nat →
  (∀ c' name, entry ≠ (c', name, UnmountRoot r)) →
  (c, "destroy", UnmountRoot r) ∈ ls' ∧
  (∀ c' name, (c', name, UnmountRoot r) ∈ ls' → c' = c ∧ name = "destroy") ∧
  (r < n')%nat.
Proof.
  intros (Hin & Honly & Hlt) -> Hn Hentry. split; [|split].
  - apply elem_of_app. by left.
  - intros c' name [Hold|Hnew%list_elem_of_singleton]%elem_of_app.
    + by apply Honly.
    + by destruct (Hentry c' name).
  - lia.
Qed.

Lemma step_guarded c r s p : guarded c r p → guarded c r (step s p).
Proof.
  intros Hg. destruct s as [c' name|c' d node o|c' name tag]; simpl.
  - destruct (emit_listeners c' name p) as [Hl Hn].
    unfold guarded. by rewrite Hl, Hn.
  - destruct (mount_page c' d node o p) as [->|(Hl & Hn & _)]; [done|].
    apply (guarded_extend c r p (c', "destroy", UnmountRoot (next_root p)));
      [done|done|lia|].
    intros c0 name0 [= _ _ Hr]. destruct Hg as (_ & _ & Hlt). lia.
  - by apply (guarded_extend c r p (c', name, OtherCallback tag)).
Qed.

Lemma step_keeps_root c r s p :
  guarded c r p → destroys c s = false →
  reactRoots (step s p) !! r = reactRoots p !! r.
Proof.
  intros (Hin & Honly & Hlt) Hs.
  destruct s as [c' name|c' d node o|c' name tag]; simpl in *.
  - unfold emit. apply run_callbacks_other.
    rewrite elem_of_callbacks_for. intros H%Honly.
    by apply bool_decide_eq_false in Hs.
  - destruct (mount_page c' d node o p) as [->|(_ & _ & Hr)]; [done|].
    apply Hr. lia.
  - done.
Qed.

Lemma step_destroy c r s p :
  guarded c r p → is_Some (reactRoots p !! r) → destroys c s = true →
  root_is_unmounted (step s p) r.
Proof.
  intros (Hin & _ & _) Hroot Hs.
  destruct s as [c' name|c' d node o|c' name tag]; simpl in *; [|done|done].
  apply bool_decide_eq_true in Hs as [-> ->].
  unfold emit. apply run_callbacks_unmounts; [|done].
  by apply elem_of_callbacks_for.
Qed.

Lemma step_unmounted r s p :
  (r < next_root p)%nat →
  root_is_unmounted p r → root_is_unmounted (step s p) r.
Proof.
  intros Hlt Hun. destruct s as [c' name|c' d node o|c' name tag]; simpl.
  - unfold emit. by apply run_callbacks_unmounted.
  - destruct (mount_page c' d node o p) as [->|(_ & _ & Hr)]; [done|].
    destruct Hun as (rt & Hrt & Hun). exists rt. split; [|done].
    rewrite Hr by lia. done.
  - done.
Qed.

Lemma unmounted_not_mounted p r : root_is_unmounted p r → is_mounted p r = false.
Proof. intros (rt & Hrt & Hun). unfold is_mounted. by rewrite Hrt, Hun. Qed.

Lemma run_unmounted c r steps p :
  guarded c r p → root_is_unmounted p r →
  root_is_unmounted (steps_run steps p) r.
Proof.
  revert p. induction steps as [|s steps IH]; intros p Hg Hun; [done|].
  simpl. apply IH; [by apply step_guarded|].
  apply step_unmounted; [|done]. by destruct Hg as (_ & _ & ?).
Qed.

Lemma run_mounted c r steps p :
  guarded c r p → is_mounted p r = true →
  is_mounted (steps_run steps p) r = negb (existsb (destroys c) steps).
Proof.
  revert p. induction steps as [|s steps IH]; intros p Hg Hm; [done|].
  simpl. destruct (destroys c s) eqn:Hs; simpl.
  - apply unmounted_not_mounted, (run_unmounted c); [by apply step_guarded|].
    apply (step_destroy c); [done| |done].
    unfold is_mounted in Hm. destruct (reactRoots p !! r); [eauto|done].
  - apply IH; [by apply step_guarded|].
    unfold is_mounted. by rewrite (step_keeps_root c).
Qed.

(** A call that gets past [createRoot] on a well-formed page leaves the new
    root mounted and guarded by its destroy callback, whether or not the
    first render throws. *)
Lemma mount_guarded c d node o p :
  page_wf p →
  createRoot_throws d o = false →
  let r := next_root p in
  let p' := snd (mount c d node o p) in
  guarded c r p' ∧ is_mounted p' r = true.
Proof.
  intros Hwf Hcreate. cbv zeta. rewrite mount_outcome, Hcreate. cbv zeta.
  assert (Hg : ∀ roots,
             guarded c (next_root p)
               (mkPage roots (S (next_root p))
                  (componentListeners p
                     ++ [(c, "destroy", UnmountRoot (next_root p))]))).
  { intros roots. split; [|split]; simpl.
    - apply elem_of_app. right. by apply list_elem_of_singleton.
    - intros c' name [Hold|Hnew%list_elem_of_singleton]%elem_of_app.
      + apply Hwf in Hold. lia.
      + by injection Hnew as -> ->.
    - lia. }
  destruct (render_throws node); simpl; (split; [apply Hg|]);
    unfold is_mounted; simpl; by rewrite lookup_insert_eq.
Qed.

(** C8.  Take any call of [renderReactComponent] for the host component
    [c] that gets a root from [createRoot].  Right after the call the root
    is mounted (and holds the given content when the call returned), and
    after any further history of the page (events of any component, more
    calls of the adapter, other subscriptions) it is still mounted exactly
    when the destroy event of [c] has not been emitted in that history. *)
Theorem root_unmounted_exactly_on_destroy c d node o p :
  page_wf p →
  createRoot_throws d o = false →
  let r := next_root p in
  let p' := snd (mount c d node o p) in
  is_mounted p' r = true ∧
  (∀ h, fst (mount c d node o p) = Normal h →
        reactRoot h = r ∧
        root_children <$> reactRoots p' !! r = Some (Some node)) ∧
  ∀ steps,
    is_mounted (steps_run steps p') r = negb (existsb (destroys c) steps).
Proof.
  intros Hwf Hcreate. cbv zeta.
  destruct (mount_guarded c d node o p Hwf Hcreate) as [Hg Hm].
  split; [done|]. split.
  - intros h. rewrite mount_outcome, Hcreate. cbv zeta.
    destruct (render_throws node); simpl; [done|].
    intros [= <-]. by rewrite lookup_insert_eq.
  - intros steps. by apply (run_mounted c).
Qed.

(** C9.  The declared parameter list makes [reactRootOptions] required, so
    the three-argument call of the function's own documentation does not
    pass the arity check while a four-argument call does; and every call
    that returns hands back a handle whose [reactRoot] is the root the call
    created for the given container and options, holding the given
    content. *)
Theorem renderReactComponent_signature_and_handle :
  accepts_arguments renderReactComponent_params documented_call_arguments = false ∧
  accepts_arguments renderReactComponent_params 4 = true ∧
  ∀ c d node o p h p',
    mount c d node o p = (Normal h, p') →
    reactRoot h = next_root p ∧
    reactRoots p' !! reactRoot h = Some (mkReactRoot d o (Some node) false).
Proof.
  split; [done|]. split; [done|].
  intros c d node o p h p'. rewrite mount_outcome.
  destruct (createRoot_throws d o); [done|].
  destruct (render_throws node); [done|].
  cbv zeta. intros [= <- <-]. simpl.
  split; [done|]. by rewrite lookup_insert_eq.
Qed.

(** C10.  When [createRoot] succeeds and the initial render throws, the
    call throws, and in the page it leaves behind the root exists and the
    callback that unmounts it is registered for the destroy event of the
    host component: emitting that event unmounts the root. *)
Theorem destroy_callback_installed_before_render c d node o p :
  createRoot_throws d o = false →
  render_throws node = true →
  let r := next_root p in
  let p' := snd (mount c d node o p) in
  fst (mount c d node o p) = Throw "render" ∧
  reactRoots p' !! r = Some (mkReactRoot d o None false) ∧
  (c, "destroy", UnmountRoot r) ∈ componentListeners p' ∧
  root_is_unmounted (snd (emit c "destroy" p')) r.
Proof.
  intros Hcreate Hrender. cbv zeta.
  rewrite mount_outcome, Hcreate, Hrender. cbv zeta. simpl.
  assert (Hin : (c, "destroy", UnmountRoot (next_root p))
                ∈ componentListeners p ++ [(c, "destroy", UnmountRoot (next_root p))]).
  { apply elem_of_app. right. by apply list_elem_of_singleton. }
  split; [done|]. split; [by rewrite lookup_insert_eq|]. split; [done|].
  unfold emit. apply run_callbacks_unmounts.
  - by apply elem_of_callbacks_for.
  - simpl. rewrite lookup_insert_eq. eauto.
Qed.

End MountAdapterProofs.

Lemma page_wf_empty : page_wf empty_page.
Proof. intros c name r H. by apply not_elem_of_nil in H. Qed.

Lemma root_unmounted_exactly_on_destroy_witness :
  is_mounted (page_run (λ _ _, false) (λ _, false)
                [Emit 1 "destroy"; Emit 0 "create"] mounted_page) 0 = true ∧
  is_mounted (page_run (λ _ _, false) (λ _, false)
                [Emit 1 "destroy"; Emit 0 "destroy"; Emit 0 "destroy"]
                mounted_page) 0 = false.
Proof.
  pose proof (root_unmounted_exactly_on_destroy (λ _ _, false) (λ _, false)
                0 (DomContainer 0) (ReactElement 0) (RootOptionsObject 0)
                empty_page page_wf_empty eq_refl)
    as (_ & _ & H).
  split; apply H.
Defined.

Lemma destroy_callback_installed_before_render_witness :
  fst (renderReactComponent (λ _ _, false) (λ _, true)
         0 (DomContainer 0) (ReactElement 0) (RootOptionsObject 0) empty_page)
    = Throw "render" ∧
  (0%nat, "destroy", UnmountRoot 0)
    ∈ componentListeners
        (snd (renderReactComponent (λ _ _, false) (λ _, true)
                0 (DomContainer 0) (ReactElement 0) (RootOptionsObject 0)
                empty_page)).
Proof.
  pose proof (destroy_callback_installed_before_render (λ _ _, false) (λ _, true)
                0 (DomContainer 0) (ReactElement 0) (RootOptionsObject 0)
                empty_page eq_refl eq_refl) as (H1 & _ & H2 & _).
  split; [exact H1 | exact H2].
Defined.

(** * Further properties of the state bridge *)

(** ** One invocation, seen from the store *)

Lemma useState_keeps_calls f v : keeps calls (useState f v).
Proof. intros w. unfold useState, exec.
  by destruct (memoizedState (fiber_of w f)). Qed.

Lemma useEffect_keeps_calls f e d : keeps calls (useEffect f e d).
Proof. intros w. unfold useEffect, exec, modify; simpl.
  destruct (effectDeps (fiber_of w f)); [case_decide|]; done. Qed.

Lemma hook_keeps_registry f m d : keeps registry (useRacerState f m d).
Proof.
  intros w. rewrite useRacerState_split.
  by rewrite useEffect_keeps_registry, hook_prefix_keeps_registry.
Qed.

Lemma root_data_overwritten_other m v w w' r :
  stores w' = overwritten m v w → r ≠ root m → root_data w' r = root_data w r.
Proof.
  intros Hs Hr. unfold root_data. rewrite Hs. unfold overwritten.
  by rewrite lookup_insert_ne.
Qed.

Lemma root_data_overwritten_disjoint m v w w' q :
  stores w' = overwritten m v w →
  disjoint_paths (segments (path m)) q = true →
  lookup_path q (root_data w' (root m)) = lookup_path q (root_data w (root m)).
Proof.
  intros Hs Hq. unfold root_data at 1. rewrite Hs. unfold overwritten.
  rewrite lookup_insert_eq. simpl. by apply lookup_set_disjoint.
Qed.

(** X1.  Called without a default (the argument is undefined or null) the
    hook only reads: its one call on the store is [getDeepCopy], documents
    and registry stay as they are, and the value it returns is absent
    exactly when the store holds nothing at the path, the stored value
    otherwise. *)
Theorem hook_without_default_only_reads f m d w :
  nullish d = true →
  let r := fst (eval (useRacerState f m d) w) in
  let w' := exec (useRacerState f m d) w in
  stores w' = stores w ∧
  registry w' = registry w ∧
  calls w' = calls w ++ [CallGetDeepCopy m] ∧
  nullish r = nullish (value_at w m) ∧
  (if nullish (value_at w m) then r = d else r = value_at w m).
Proof.
  intros Hd. cbv zeta. rewrite eval_useRacerState. cbn [fst].
  split; [by rewrite stores_useRacerState, Hd|].
  split; [apply hook_keeps_registry|].
  split.
  { unfold useRacerState.
    rewrite !exec_bind, exec_ret, useEffect_keeps_calls, useState_keeps_calls.
    by rewrite Hd. }
  unfold coalesce. by destruct (nullish (value_at w m)) eqn:Hs.
Qed.

Lemma hook_without_default_only_reads_witness :
  stores (exec (useRacerState 0 message VUndefined) empty_world)
    = stores empty_world ∧
  fst (eval (useRacerState 0 message VUndefined) empty_world) = VUndefined.
Proof.
  pose proof (hook_without_default_only_reads 0 message VUndefined empty_world
                eq_refl) as (Hs & _ & _ & _ & Hr).
  split; [exact Hs | exact Hr].
Defined.

(** X2.  Whatever the store and the default, the value the hook returns is
    the value the store holds at the path once the hook has run; the one
    exception is that both may be absent in different ways (null against
    undefined). *)
Theorem returned_value_is_store_value f m d w :
  let r := fst (eval (useRacerState f m d) w) in
  let w' := exec (useRacerState f m d) w in
  if nullish r then nullish (value_at w' m) = true else value_at w' m = r.
Proof.
  cbv zeta. rewrite eval_useRacerState. cbn [fst]. unfold coalesce.
  pose proof (stores_useRacerState f m d w) as Hs.
  destruct (nullish (value_at w m)) eqn:Hstored.
  - destruct (nullish d) eqn:Hd; simpl in Hs.
    + by rewrite (value_at_stores w).
    + by apply value_at_overwritten with w.
  - rewrite andb_false_r in Hs. rewrite Hstored.
    by rewrite (value_at_stores w).
Qed.

(** X3.  An invocation of the hook can change the store only at the bound
    path: every disjoint path of the document and every other document read
    as before, and the hook body itself registers and removes nothing. *)
Theorem hook_touches_only_bound_path f m d w :
  let w' := exec (useRacerState f m d) w in
  (∀ q, disjoint_paths (segments (path m)) q = true →
        lookup_path q (root_data w' (root m))
        = lookup_path q (root_data w (root m))) ∧
  (∀ r, r ≠ root m → root_data w' r = root_data w r) ∧
  registry w' = registry w.
Proof.
  cbv zeta. pose proof (stores_useRacerState f m d w) as Hs.
  split; [|split; [|apply hook_keeps_registry]].
  - intros q Hq. destruct (negb (nullish d) && nullish (value_at w m)).
    + by apply root_data_overwritten_disjoint with d.
    + unfold root_data. by rewrite Hs.
  - intros r Hr. destruct (negb (nullish d) && nullish (value_at w m)).
    + by apply root_data_overwritten_other with m d.
    + unfold root_data. by rewrite Hs.
Qed.

Lemma hook_touches_only_bound_path_witness :
  lookup_path (segments "_page.message")
    (root_data (exec (useRacerState 0 counter (VNum 1)) world_with_message) 0)
  = VStr "Initial message".
Proof.
  pose proof (hook_touches_only_bound_path 0 counter (VNum 1) world_with_message)
    as (H & _).
  exact (eq_trans (H (segments "_page.message") eq_refl) eq_refl).
Defined.

(** ** A render pass, cell by cell *)

Lemma commitEffects_keeps_stores f : keeps stores (commitEffects f).
Proof.
  intros w. unfold commitEffects, exec.
  destruct (effectPending (fiber_of w f)) as [[r p c s]|]; [|done].
  by destruct (effectDestroy (fiber_of w f)) as [[lm id]|].
Qed.

Lemma begin_render_keeps_stores f : keeps stores (begin_render f).
Proof. unfold begin_render. intros w. rewrite exec_modify.
  by destruct (fibers w !! f). Qed.

Lemma stores_render f m d w :
  stores (exec (render f m d) w) =
  if negb (nullish d) && nullish (value_at w m)
  then overwritten m d w else stores w.
Proof.
  rewrite exec_render, commitEffects_keeps_stores, stores_useRacerState.
  pose proof (begin_render_keeps_stores f w) as Hb.
  rewrite (value_at_stores w) by done.
  unfold overwritten, root_data. by rewrite Hb.
Qed.

Lemma eval_render f m d w :
  fst (eval (render f m d) w) = coalesce (value_at w m) d.
Proof.
  unfold render. rewrite !eval_bind. cbn [eval ret fst].
  rewrite eval_useRacerState. cbn [fst].
  by rewrite (value_at_stores w) by apply begin_render_keeps_stores.
Qed.

Lemma commitEffects_fiber f w r p c s :
  effectPending (fiber_of w f) = Some (Subscribe r p c s) →
  fiber_of (exec (commitEffects f) w) f =
  effect_done
    (Unsubscribe (listenerModel_of (mkModel r p c 0) w) (next_listener w))
    (fiber_of w f).
Proof.
  intros Hp. unfold commitEffects, exec. rewrite Hp.
  destruct (effectDestroy (fiber_of w f)) as [[lm id]|];
    cbn -[fiber_of with_fibers]; by rewrite fiber_of_insert, decide_True.
Qed.

Lemma commitEffects_other_fiber f g w :
  g ≠ f → fiber_of (exec (commitEffects f) w) g = fiber_of w g.
Proof.
  intros Hne. unfold commitEffects, exec.
  destruct (effectPending (fiber_of w f)) as [[r p c s]|]; [|done].
  destruct (effectDestroy (fiber_of w f)) as [[lm id]|];
    cbn -[fiber_of with_fibers];
    by rewrite fiber_of_insert, decide_False by congruence.
Qed.

(** The effect cell of the rendering component after a render pass. *)
Lemma render_cells f m d w :
  effectPending (fiber_of w f) = None →
  effect_cells f (exec (render f m d) w) =
  (Some (keys_of m), None,
   if decide (effectDeps (fiber_of w f) = Some (keys_of m))
   then cleanup_of w f
   else Some (Unsubscribe (listenerModel_of m w) (next_listener w))).
Proof.
  intros Hpend. rewrite exec_render.
  destruct (before_commit f m d w) as [Hreg Hcells].
  specialize (Hcells _ _ _ eq_refl). rewrite Hpend in Hcells.
  set (w3 := exec (useRacerState f m d) (exec (begin_render f) w)) in *.
  apply registry_eq in Hreg as (Hl & Hn & Hi).
  unfold effect_cells in Hcells at 1.
  destruct (decide (effectDeps (fiber_of w f) = Some (keys_of m))) as [Heq|Hne].
  - rewrite decide_True in Hcells by done.
    injection Hcells as Hd Hp Hx.
    rewrite (commitEffects_idle f w3 Hp).
    unfold effect_cells, cleanup_of. by rewrite Hd, Hp, Hx, Heq.
  - rewrite decide_False in Hcells by done.
    injection Hcells as Hd Hp Hx.
    unfold effect_cells. rewrite (commitEffects_fiber f w3 _ _ _ _ Hp). simpl.
    rewrite Hd. unfold listenerModel_of; simpl. by rewrite Hn, Hi.
Qed.

(** Those of every other component are as before. *)
Lemma render_other_cells f g m d w :
  g ≠ f → effect_cells g (exec (render f m d) w) = effect_cells g w.
Proof.
  intros Hne. rewrite exec_render. unfold effect_cells at 1.
  rewrite commitEffects_other_fiber by done.
  fold (effect_cells g (exec (useRacerState f m d) (exec (begin_render f) w))).
  rewrite useRacerState_split.
  by rewrite (useEffect_keeps_other_cells g f), hook_prefix_keeps_effect_cells,
    begin_render_keeps_effect_cells.
Qed.

(** ** The first render *)

Lemma run_listener_keeps_absent f l w :
  fibers w !! f = None → fibers (exec (run_listener l) w) !! f = None.
Proof.
  intros Hf. unfold run_listener. destruct (l_fn l) as [[g] lm|tag]; [|done].
  rewrite exec_bind. unfold dispatch. rewrite exec_modify.
  change (fibers (exec (getDeepCopy lm) w)) with (fibers w).
  destruct (fibers w !! g) eqn:Hg; [|done].
  unfold with_fibers; simpl. rewrite lookup_insert_ne; [done|congruence].
Qed.

Lemma emitMutation_keeps_absent f r segs w :
  fibers w !! f = None → fibers (exec (emitMutation r segs) w) !! f = None.
Proof.
  rewrite exec_emitMutation.
  generalize (List.filter (listens r segs) (listeners w)). intros ls.
  revert w. induction ls as [|l ls IH]; intros w Hf; [done|].
  rewrite exec_for_each_cons. by apply IH, run_listener_keeps_absent.
Qed.

Lemma setNull_keeps_absent f m v w :
  fibers w !! f = None → fibers (exec (setNull m v) w) !! f = None.
Proof.
  intros Hf. rewrite exec_setNull. destruct (nullish (value_at w m)); [|done].
  rewrite exec_bind. by apply emitMutation_keeps_absent.
Qed.

Lemma hook_prefix_fresh f m d w :
  fibers w !! f = None →
  fiber_of (exec (hook_prefix f m d) w) f
  = set_memoizedState (coalesce (value_at w m) d) fresh_fiber.
Proof.
  intros Hf. unfold hook_prefix. rewrite !exec_bind.
  set (w2 := exec (if negb (nullish d) then setNull m d else ret ())
               (exec (getDeepCopy m) w)).
  assert (Hf2 : fibers w2 !! f = None).
  { unfold w2. destruct (nullish d); simpl; [done|].
    by apply setNull_keeps_absent. }
  assert (Hfresh : fiber_of w2 f = fresh_fiber)
    by (unfold fiber_of; by rewrite Hf2).
  unfold useState, exec. rewrite Hfresh. simpl.
  by rewrite fiber_of_insert, decide_True.
Qed.

(** X4.  The first render of a component initialises its state cell with
    the value the hook returns and subscribes it, and it does not call the
    component's own state dispatcher, not even when it writes the default:
    no re-render is requested. *)
Theorem first_render_is_quiet f m d w0 :
  fibers w0 !! f = None →
  fiber_of (exec (render f m d) w0) f =
  mkFiber (Some (coalesce (value_at w0 m) d)) false 0%nat
          (Some (keys_of m)) None
          (Some (Unsubscribe (listenerModel_of m w0) (next_listener w0))).
Proof.
  intros Hfresh. rewrite exec_render, useRacerState_split.
  assert (Hb : exec (begin_render f) w0 = w0).
  { unfold begin_render. rewrite exec_modify. by rewrite Hfresh. }
  rewrite Hb.
  pose proof (hook_prefix_fresh f m d w0 Hfresh) as Hfb.
  pose proof (hook_prefix_keeps_registry f m d w0) as Hreg.
  set (w2 := exec (hook_prefix f m d) w0) in *.
  apply registry_eq in Hreg as (Hl & Hn & Hi).
  set (w3 := exec (useEffect f (effect_of f m) (keys_of m)) w2).
  assert (Hfb3 : fiber_of w3 f =
                 schedule_effect (effect_of f m) (keys_of m) (fiber_of w2 f)).
  { unfold w3, useEffect. rewrite exec_modify. cbv zeta. rewrite Hfb. simpl.
    by rewrite fiber_of_insert, decide_True. }
  assert (Hreg3 : registry w3 = registry w2) by apply useEffect_keeps_registry.
  apply registry_eq in Hreg3 as (Hl3 & Hn3 & Hi3).
  rewrite (commitEffects_fiber f w3 (root m) (path m) (_eventContext m)
             (SetStateValue f)) by (by rewrite Hfb3).
  rewrite Hfb3, Hfb. unfold listenerModel_of; simpl.
  by rewrite Hn3, Hi3, Hn, Hi.
Qed.

Lemma first_render_is_quiet_witness :
  dispatches (fiber_of counter_mounted 0) = 0%nat ∧
  scheduled (fiber_of counter_mounted 0) = false ∧
  memoizedState (fiber_of counter_mounted 0) = Some (VNum 1).
Proof.
  pose proof (first_render_is_quiet 0 counter (VNum 1) empty_world eq_refl) as H.
  unfold counter_mounted. rewrite H. repeat split.
Defined.

(** ** Subscriptions stay bound to the keys of the last render *)

Lemma Forall_filter_bool {A} (P : A → Prop) (Q : A → bool) (l : list A) :
  Forall P l → Forall P (List.filter Q l).
Proof.
  rewrite !Forall_forall. intros H x [Hx _]%elem_of_filter_bool. auto.
Qed.

Lemma Forall_without_opt (P : Listener → Prop) od ls :
  Forall P ls → Forall P (without_opt od ls).
Proof.
  intros H. destruct od as [[lm id]|]; [|done]. by apply Forall_filter_bool.
Qed.

Lemma coherent_empty : coherent empty_world.
Proof. split; [by apply Forall_nil|]. intros f deps. by unfold fiber_of. Qed.

Lemma coherent_frame w w' :
  registry w' = registry w →
  (∀ f, effect_cells f w' = effect_cells f w) →
  coherent w → coherent w'.
Proof.
  intros (Hl & _)%registry_eq Hcells [Hwb Hdeps]. split; [by rewrite Hl|].
  intros f deps. specialize (Hcells f). unfold effect_cells in Hcells.
  injection Hcells as Hd _ Hx. unfold cleanup_of. rewrite Hd, Hx.
  apply Hdeps.
Qed.

Lemma coherent_render f m d w :
  consistent w → coherent w → coherent (exec (render f m d) w).
Proof.
  intros [_ Hpend] [Hwb Hdeps]. split.
  - rewrite (render_listeners f m d w (effectDeps (fiber_of w f))
               (effectDestroy (fiber_of w f)))
      by (unfold effect_cells; by rewrite Hpend).
    destruct (decide _); [done|].
    apply Forall_app. split; [by apply Forall_without_opt|].
    apply Forall_singleton. by split.
  - intros g deps. destruct (decide (g = f)) as [->|Hne].
    + pose proof (render_cells f m d w (Hpend f)) as Hc.
      unfold effect_cells in Hc. injection Hc as Hd _ Hx.
      unfold cleanup_of. rewrite Hd, Hx. intros [= <-].
      destruct (decide _) as [Heq|_]; [by apply Hdeps|].
      by eexists _, _.
    + pose proof (render_other_cells f g m d w Hne) as Hc.
      unfold effect_cells in Hc. injection Hc as Hd _ Hx.
      unfold cleanup_of. rewrite Hd, Hx. apply Hdeps.
Qed.

Lemma coherent_unmount f w : coherent w → coherent (exec (unmount f) w).
Proof.
  intros [Hwb Hdeps]. destruct (unmount_spec f w) as (Hl & _ & _ & Hf).
  split; [rewrite Hl; by apply Forall_without_opt|].
  intros g deps. unfold cleanup_of. rewrite Hf.
  destruct (decide (g = f)); [done|]. apply Hdeps.
Qed.

Lemma coherent_step s w :
  consistent w → coherent w → coherent (exec (run_step s) w).
Proof.
  intros Hcons Hcoh.
  destruct s as [f m d|f|q mu|[m] v|q tag]; simpl;
    rewrite ?exec_bind, ?exec_ret.
  - by apply coherent_render.
  - by apply coherent_unmount.
  - revert Hcoh. apply coherent_frame.
    + destruct mu; simpl; [apply set_keeps_registry | apply del_keeps_registry].
    + intros f. destruct mu; simpl;
        [apply set_keeps_effect_cells | apply del_keeps_effect_cells].
  - revert Hcoh. apply coherent_frame.
    + apply set_keeps_registry.
    + intros f. apply set_keeps_effect_cells.
  - destruct Hcoh as [Hwb Hdeps]. split; [|done]. simpl.
    apply Forall_app. split; [done|]. by apply Forall_singleton.
Qed.

(** Every world a history leads to is consistent and coherent. *)
Lemma run_invariants steps w :
  consistent w → coherent w →
  consistent (run steps w) ∧ coherent (run steps w).
Proof.
  unfold run. revert w. induction steps as [|s steps IH]; intros w Hc Hh; [done|].
  rewrite exec_for_each_cons.
  apply IH; [by apply consistent_step | by apply coherent_step].
Qed.

Lemma reachable_invariants steps :
  consistent (run steps empty_world) ∧ coherent (run steps empty_world).
Proof. apply run_invariants; [apply consistent_empty | apply coherent_empty]. Qed.

(** ** Who is told about a mutation *)

Lemma beneath_prefix_refl p : beneath p p = true.
Proof. apply beneath_prefix. done. Qed.

(** Emitting a mutation where the one listener of [f] sits anywhere in the
    registry. *)
Lemma emitMutation_at_listener f lm pre l post r segs w fb :
  listeners w = pre ++ l :: post →
  Forall (λ x, owned_by f x = false) (pre ++ post) →
  l_fn l = OnModelEvent (SetStateValue f) lm →
  fibers w !! f = Some fb →
  fibers (exec (emitMutation r segs) w) !! f =
  Some (if listens r segs l then request_render (value_at w lm) fb else fb).
Proof.
  intros Hl Hrest Hfn Hf.
  apply Forall_app in Hrest as [Hpre Hpost].
  rewrite exec_emitMutation, Hl, List.filter_app, exec_for_each_app.
  set (w1 := exec (for_each (List.filter (listens r segs) pre) run_listener) w).
  assert (Hf1 : fibers w1 !! f = Some fb).
  { unfold w1. rewrite run_listeners_not_owned; [done|].
    by apply Forall_filter_bool. }
  assert (Hs1 : stores w1 = stores w).
  { unfold w1. apply keeps_for_each. auto with frame. }
  simpl. destruct (listens r segs l).
  - rewrite exec_for_each_cons.
    rewrite run_listeners_not_owned by (by apply Forall_filter_bool).
    rewrite (run_listener_owned f lm l w1 fb Hfn Hf1).
    by rewrite (value_at_stores w).
  - by rewrite run_listeners_not_owned by (by apply Forall_filter_bool).
Qed.

Lemma bound_fiber_mounted w f m :
  bound_to w f m → fibers w !! f = Some (fiber_of w f).
Proof.
  unfold bound_to, fiber_of. by destruct (fibers w !! f).
Qed.

(** In a consistent and coherent world, what an emitted mutation does to a
    component bound to [m]. *)
Lemma notify_bound w f m r segs w1 :
  consistent w → coherent w → bound_to w f m →
  listeners w1 = listeners w → fibers w1 = fibers w →
  fiber_of (exec (emitMutation r segs) w1) f =
  if (r =? root m)%nat && beneath (segments (path m)) segs
  then request_render (value_at w1 m) (fiber_of w f)
  else fiber_of w f.
Proof.
  intros Hcons [Hwb Hdeps] Hbound Hl1 Hf1.
  destruct (Hdeps f _ Hbound) as (lm & id & Hclean & Hkeys).
  destruct (own_listener_split w f lm id Hcons Hclean)
    as (pre & l & post & Hsplit & Hid & Hroot & Hfn & Hrest).
  assert (Hwbl : well_bound l).
  { rewrite Forall_forall in Hwb. apply Hwb. rewrite Hsplit.
    apply elem_of_app. right. apply list_elem_of_here. }
  unfold well_bound in Hwbl. rewrite Hfn in Hwbl. destruct Hwbl as [_ Hsegs].
  unfold keys_of in Hkeys. injection Hkeys as Hr Hp _.
  unfold fiber_of at 1.
  rewrite (emitMutation_at_listener f lm pre l post r segs w1 (fiber_of w f));
    [|congruence|done|done|rewrite Hf1; by apply bound_fiber_mounted with m].
  simpl. unfold listens. rewrite Hroot, Hsegs, Hr, Hp, (Nat.eqb_sym (root m) r).
  destruct ((r =? root m)%nat && beneath (segments (path m)) segs); [|done].
  by rewrite (value_at_same_binding w1 m lm).
Qed.

Lemma mutate_notifies w f m q mu :
  consistent w → coherent w → bound_to w f m →
  fiber_of (exec (mutate q mu) w) f =
    if at_or_beneath m q
    then request_render (value_at (exec (mutate q mu) w) m) (fiber_of w f)
    else fiber_of w f.
Proof.
  intros Hcons Hcoh Hbound.
  destruct (exec_mutate q mu w) as (w1 & Hw' & Hl1 & Hf1).
  rewrite Hw', (notify_bound w f m _ _ w1) by done.
  unfold at_or_beneath.
  destruct ((root q =? root m)%nat && beneath _ _); [|done].
  f_equal. symmetry. apply value_at_stores, emitMutation_keeps_stores.
Qed.

(** X5.  After any history, a mutation made through any handle [q] reaches
    every component according to the binding of its last render alone: a
    component bound to [m] has its callback run exactly once when [q]
    addresses the path of [m] or a path beneath it in the same root model
    (its state cell then holds the value now at the path of [m], and a
    re-render is requested), and is left as it was otherwise; other
    components and other listeners in the registry make no difference. *)
Theorem mutation_notifies_bound_consumers steps f m q mu :
  let w := run steps empty_world in
  bound_to w f m →
  let w' := exec (mutate q mu) w in
  fiber_of w' f =
    if at_or_beneath m q
    then request_render (value_at w' m) (fiber_of w f)
    else fiber_of w f.
Proof.
  cbv zeta. intros Hbound.
  destruct (reachable_invariants steps) as [Hcons Hcoh].
  by apply mutate_notifies.
Qed.

Lemma mutation_notifies_bound_consumers_witness :
  memoizedState
    (fiber_of (exec (mutate message_again (MSet (VStr "hello")))
                 (run page_history empty_world)) 1)
    = Some (VStr "hello") ∧
  fiber_of (exec (mutate message_again (MSet (VStr "hello")))
              (run page_history empty_world)) 0
    = fiber_of (run page_history empty_world) 0.
Proof.
  pose proof (mutation_notifies_bound_consumers page_history 1 message
                message_again (MSet (VStr "hello")) eq_refl) as H1.
  pose proof (mutation_notifies_bound_consumers page_history 0 counter
                message_again (MSet (VStr "hello")) eq_refl) as H0.
  split; [exact (f_equal memoizedState H1) | exact H0].
Defined.

(** X6.  After any history, calling a setter the hook returned for a handle
    on some path stores the new value there and hands it to every component
    bound to that path, whichever handle object and whichever component the
    setter came from: the state cell of such a component holds the new
    value and its re-render is requested. *)
Theorem setter_reaches_bound_consumers steps g m' d w0 f m newValue :
  let setter := snd (eval (useRacerState g m' d) w0) in
  let w := run steps empty_world in
  bound_to w f m →
  root m' = root m → path m' = path m →
  let w' := exec (setModelValue setter newValue) w in
  value_at w' m = newValue ∧
  fiber_of w' f = request_render newValue (fiber_of w f).
Proof.
  cbv zeta. rewrite eval_useRacerState. cbn [snd setModelValue].
  intros Hbound Hroot Hpath.
  destruct (reachable_invariants steps) as [Hcons Hcoh].
  set (w := run steps empty_world) in *.
  assert (Hv : value_at (exec (set m' newValue) w) m = newValue).
  { rewrite (value_at_same_binding _ m' m) by congruence.
    apply value_at_overwritten with w, stores_set. }
  split; [done|].
  unfold set in *. rewrite !exec_bind in *.
  set (w1 := exec (write (root m') (segments (path m')) newValue)
               (exec (modify (log (CallSet m' newValue))) w)) in *.
  rewrite (notify_bound w f m _ _ w1) by done.
  rewrite Hroot, Hpath, Nat.eqb_refl, beneath_prefix_refl. simpl.
  f_equal. rewrite <- Hv. symmetry.
  apply value_at_stores, emitMutation_keeps_stores.
Qed.

Lemma setter_reaches_bound_consumers_witness :
  value_at (exec (setModelValue (SetModelValue message_again) (VStr "typed"))
              (run page_history empty_world)) message = VStr "typed" ∧
  memoizedState
    (fiber_of (exec (setModelValue (SetModelValue message_again) (VStr "typed"))
                 (run page_history empty_world)) 1)
    = Some (VStr "typed").
Proof.
  pose proof (setter_reaches_bound_consumers page_history 5 message_again
                VUndefined empty_world 1 message (VStr "typed")
                eq_refl eq_refl eq_refl) as [Hv Hf].
  split; [exact Hv | exact (f_equal memoizedState Hf)].
Defined.

(** ** Rebinding, rendering again, and being discarded *)

Lemma disjoint_paths_differ (m1 m2 : Model) :
  disjoint_paths (segments (path m1)) (segments (path m2)) = true →
  keys_of m1 ≠ keys_of m2 ∧ at_or_beneath m2 m1 = false.
Proof.
  unfold disjoint_paths. intros [H12 H21]%andb_true_iff.
  apply negb_true_iff in H12, H21. split.
  - unfold keys_of. intros [= _ Hp _]. rewrite Hp in H12.
    by rewrite beneath_prefix_refl in H12.
  - unfold at_or_beneath. by rewrite H21, andb_false_r.
Qed.

(** X7.  A component bound to [m1] that renders with a handle [m2] on a
    disjoint path gets the value at the new path, its one listener (at the
    path of [m1]) leaves the registry and one listener at the path of [m2]
    is appended, everything else staying in place; from then on a mutation
    at the old path leaves the component as it is and a mutation at or
    beneath the new path reaches it. *)
Theorem rebinding_moves_subscription steps f m1 m2 d :
  let w := run steps empty_world in
  bound_to w f m1 →
  disjoint_paths (segments (path m1)) (segments (path m2)) = true →
  let w1 := exec (render f m2 d) w in
  fst (eval (render f m2 d) w) = coalesce (value_at w m2) d ∧
  (∃ pre l post,
     listeners w = pre ++ l :: post ∧
     owned_by f l = true ∧
     l_root l = root m1 ∧ l_segments l = segments (path m1) ∧
     listeners w1 = pre ++ post ++ [subscription_of f m2 w]) ∧
  (∀ mu, fiber_of (exec (mutate m1 mu) w1) f = fiber_of w1 f) ∧
  (∀ q mu, at_or_beneath m2 q = true →
     fiber_of (exec (mutate q mu) w1) f
     = request_render (value_at (exec (mutate q mu) w1) m2) (fiber_of w1 f)).
Proof.
  cbv zeta. intros Hbound Hdis.
  destruct (reachable_invariants steps) as [Hcons Hcoh].
  set (w := run steps empty_world) in *.
  destruct (disjoint_paths_differ m1 m2 Hdis) as [Hkeys Hold].
  assert (Hpend : effectPending (fiber_of w f) = None) by apply Hcons.
  assert (Hbound1 : bound_to (exec (render f m2 d) w) f m2).
  { pose proof (render_cells f m2 d w Hpend) as Hc.
    unfold effect_cells in Hc. by injection Hc as Hd _ _. }
  pose proof (consistent_render f m2 d w Hcons) as Hcons1.
  pose proof (coherent_render f m2 d w Hcons Hcoh) as Hcoh1.
  split; [apply eval_render|]. split; [|split].
  - destruct Hcoh as [Hwb Hdeps].
    destruct (Hdeps f _ Hbound) as (lm & id & Hclean & Hlm).
    destruct (own_listener_split w f lm id Hcons Hclean)
      as (pre & l & post & Hsplit & Hid & Hroot & Hfn & Hrest).
    assert (Hwbl : well_bound l).
    { rewrite Forall_forall in Hwb. apply Hwb. rewrite Hsplit.
      apply elem_of_app. right. apply list_elem_of_here. }
    unfold well_bound in Hwbl. rewrite Hfn in Hwbl. destruct Hwbl as [_ Hsegs].
    unfold keys_of in Hlm. injection Hlm as Hr Hp _.
    exists pre, l, post. split; [done|].
    split; [unfold owned_by; rewrite Hfn; apply Nat.eqb_refl|].
    split; [congruence|]. split; [congruence|].
    rewrite (render_listeners f m2 d w (Some (keys_of m1))
               (Some (Unsubscribe lm id)))
      by (unfold effect_cells; by rewrite Hpend, Hbound, <- Hclean).
    rewrite decide_False by congruence. cbn [without_opt].
    assert (Hnd : NoDup (l_id <$> listeners w)) by (by destruct Hcons as [[]]).
    rewrite Hsplit in Hnd |- *.
    rewrite (without_unique lm id pre l post Hnd Hroot Hid).
    by rewrite app_assoc.
  - intros mu. rewrite (mutate_notifies _ f m2) by done. by rewrite Hold.
  - intros q mu Hq. rewrite (mutate_notifies _ f m2) by done. by rewrite Hq.
Qed.

Lemma rebinding_moves_subscription_witness :
  fst (eval (render 0 (item "1") VUndefined)
         (run rebinding_history empty_world)) = VStr "Message B" ∧
  fiber_of (exec (mutate (item "0") (MSet (VStr "A Message A")))
              (exec (render 0 (item "1") VUndefined)
                 (run rebinding_history empty_world))) 0
  = fiber_of (exec (render 0 (item "1") VUndefined)
                (run rebinding_history empty_world)) 0.
Proof.
  pose proof (rebinding_moves_subscription rebinding_history 0
                (item "0") (item "1") VUndefined eq_refl eq_refl)
    as (Hv & _ & Hold & _).
  split; [exact (eq_trans Hv eq_refl) | exact (Hold (MSet (VStr "A Message A")))].
Defined.

(** X8.  Rendering a component again with a handle that has the same three
    keys (a new handle object or the same one) and the same default does
    nothing further: documents, registry, allocation counters and cleanup
    closure are those left by the previous render, and the hook returns the
    same value. *)
Theorem rerender_changes_nothing steps f m m' d :
  let w := run steps empty_world in
  keys_of m' = keys_of m →
  let w1 := exec (render f m d) w in
  let w2 := exec (render f m' d) w1 in
  stores w2 = stores w1 ∧
  registry w2 = registry w1 ∧
  cleanup_of w2 f = cleanup_of w1 f ∧
  fst (eval (render f m' d) w1) = fst (eval (render f m d) w).
Proof.
  cbv zeta. intros Hkeys.
  destruct (reachable_invariants steps) as [Hcons _].
  set (w := run steps empty_world) in *.
  assert (Hpend : effectPending (fiber_of w f) = None) by apply Hcons.
  pose proof (render_cells f m d w Hpend) as Hc1.
  set (w1 := exec (render f m d) w) in *.
  unfold effect_cells in Hc1. injection Hc1 as Hd1 Hp1 Hx1.
  assert (Hv : value_at w1 m' = value_at w1 m).
  { unfold keys_of in Hkeys. injection Hkeys as Hr Hp _.
    by apply value_at_same_binding. }
  assert (Hv1 : value_at w1 m = if nullish (value_at w m) && negb (nullish d)
                                then d else value_at w m).
  { pose proof (stores_render f m d w) as Hs. fold w1 in Hs.
    rewrite andb_comm in Hs.
    destruct (nullish (value_at w m) && negb (nullish d)).
    - by apply value_at_overwritten with w.
    - by apply value_at_stores. }
  assert (Hquiet : negb (nullish d) && nullish (value_at w1 m') = false).
  { rewrite Hv, Hv1. destruct (nullish d) eqn:Hd; [done|]. simpl.
    rewrite andb_true_r. by destruct (nullish (value_at w m)) eqn:Hs. }
  split; [|split; [|split]].
  - by rewrite stores_render, Hquiet.
  - rewrite exec_render.
    destruct (before_commit f m' d w1) as [Hreg Hcells].
    specialize (Hcells _ _ _ eq_refl). rewrite Hd1, Hkeys in Hcells.
    rewrite decide_True in Hcells by done.
    unfold effect_cells in Hcells at 1. injection Hcells as _ Hp _.
    rewrite Hp1 in Hp. by rewrite (commitEffects_idle f _ Hp).
  - pose proof (render_cells f m' d w1 Hp1) as Hc2.
    unfold effect_cells in Hc2. injection Hc2 as _ _ Hx2.
    unfold cleanup_of at 1. rewrite Hx2, Hd1, Hkeys.
    by rewrite decide_True.
  - rewrite !eval_render, Hv, Hv1. unfold coalesce.
    destruct (nullish (value_at w m)) eqn:Hs; simpl; [|by rewrite Hs].
    by destruct (nullish d) eqn:Hd; simpl; rewrite ?Hd, ?Hs.
Qed.

Lemma rerender_changes_nothing_witness :
  stores (exec (render 0 other_counter_handle (VNum 1)) counter_mounted)
    = stores counter_mounted ∧
  registry (exec (render 0 other_counter_handle (VNum 1)) counter_mounted)
    = registry counter_mounted.
Proof.
  pose proof (rerender_changes_nothing [] 0 counter other_counter_handle
                (VNum 1) eq_refl) as (Hs & Hr & _).
  split; [exact Hs | exact Hr].
Defined.

Lemma insert_keeps_absent (g f : nat) (fb : Fiber) w :
  g ≠ f → fibers w !! f = None →
  fibers (with_fibers <[g := fb]> w) !! f = None.
Proof. intros Hne Hf. unfold with_fibers; simpl. by rewrite lookup_insert_ne. Qed.

Lemma render_keeps_absent f g m d w :
  g ≠ f → fibers w !! f = None → fibers (exec (render g m d) w) !! f = None.
Proof.
  intros Hne Hf. rewrite exec_render, useRacerState_split.
  assert (H1 : fibers (exec (begin_render g) w) !! f = None).
  { unfold begin_render. rewrite exec_modify.
    destruct (fibers w !! g); [by apply insert_keeps_absent|done]. }
  set (w1 := exec (begin_render g) w) in *.
  assert (H2 : fibers (exec (hook_prefix g m d) w1) !! f = None).
  { unfold hook_prefix. rewrite !exec_bind.
    set (w2 := exec (if negb (nullish d) then setNull m d else ret ())
                 (exec (getDeepCopy m) w1)).
    assert (Hw2 : fibers w2 !! f = None).
    { unfold w2. destruct (nullish d); simpl; [done|].
      by apply setNull_keeps_absent. }
    unfold useState, exec. destruct (memoizedState (fiber_of w2 g)); [done|].
    by apply insert_keeps_absent. }
  set (w3 := exec (hook_prefix g m d) w1) in *.
  assert (H4 : fibers (exec (useEffect g (effect_of g m) (keys_of m)) w3) !! f
               = None).
  { unfold useEffect. rewrite exec_modify. cbv zeta.
    destruct (effectDeps (fiber_of w3 g)); [case_decide; [done|]|];
      by apply insert_keeps_absent. }
  set (w4 := exec (useEffect g (effect_of g m) (keys_of m)) w3) in *.
  unfold commitEffects, exec.
  destruct (effectPending (fiber_of w4 g)) as [[r p c s]|]; [|done].
  destruct (effectDestroy (fiber_of w4 g)) as [[lm id]|];
    cbn -[fiber_of]; by rewrite lookup_insert_ne.
Qed.

Lemma step_keeps_absent f s w :
  renders f s = false →
  fibers w !! f = None → fibers (exec (run_step s) w) !! f = None.
Proof.
  intros Hs Hf.
  destruct s as [g m d|g|q mu|[m] v|q tag]; simpl in *;
    rewrite ?exec_bind, ?exec_ret.
  - apply Nat.eqb_neq in Hs. by apply render_keeps_absent.
  - unfold unmount, exec.
    destruct (effectDestroy (fiber_of w g)) as [[lm id]|]; simpl;
      rewrite lookup_delete; by destruct (decide (g = f)).
  - destruct (exec_mutate q mu w) as (w1 & -> & _ & Hf1).
    apply emitMutation_keeps_absent. by rewrite Hf1.
  - unfold set. rewrite !exec_bind. by apply emitMutation_keeps_absent.
  - done.
Qed.

(** X9.  Once a component has been discarded, and as long as it is not
    rendered again, nothing that happens brings it back: it has no state
    cell, so no mutation, setter call or render of another component calls
    its dispatcher with effect, and the registry holds no listener of
    it. *)
Theorem discarded_consumer_stays_out steps f later :
  let w := run steps empty_world in
  forallb (λ s, negb (renders f s)) later = true →
  let w' := run later (exec (unmount f) w) in
  fibers w' !! f = None ∧
  Forall (λ l, owned_by f l = false) (listeners w').
Proof.
  cbv zeta. intros Hlater.
  destruct (reachable_invariants steps) as [Hcons Hcoh].
  set (w := run steps empty_world) in *.
  pose proof (consistent_unmount f w Hcons) as Hcons1.
  assert (Habsent : fibers (exec (unmount f) w) !! f = None).
  { unfold unmount, exec.
    destruct (effectDestroy (fiber_of w f)) as [[lm id]|]; simpl;
      by rewrite lookup_delete_eq. }
  set (w1 := exec (unmount f) w) in *.
  assert (Hout : fibers (run later w1) !! f = None).
  { clearbody w1. clear Hcons1. revert w1 Habsent.
    induction later as [|s later IH]; intros w1 Habsent; [done|].
    simpl in Hlater. apply andb_true_iff in Hlater as [Hs Hlater].
    apply negb_true_iff in Hs.
    unfold run. rewrite exec_for_each_cons.
    apply (IH Hlater). by apply step_keeps_absent. }
  split; [done|].
  apply no_cleanup_no_listener; [by apply consistent_run|].
  unfold cleanup_of, fiber_of. by rewrite Hout.
Qed.

Lemma discarded_consumer_stays_out_witness :
  fibers (run [StepMutate counter (MSet (VNum 9)); StepRender 2 counter VUndefined]
            (exec (unmount 0) (run page_history empty_world))) !! 0%nat = None.
Proof.
  pose proof (discarded_consumer_stays_out page_history 0
                [StepMutate counter (MSet (VNum 9)); StepRender 2 counter VUndefined]
                eq_refl) as [H _].
  exact H.
Defined.

(** * Further properties of the mount adapter *)

Section MountAdapterHistories.

Variable createRoot_throws : Container → RootOptions → bool.
Variable render_throws : ReactNode → bool.

Abbreviation mount' := (renderReactComponent createRoot_throws render_throws).
Abbreviation step' := (page_step createRoot_throws render_throws).
Abbreviation steps_run' := (page_run createRoot_throws render_throws).

Lemma run_callbacks_keeps_root cbs r p :
  is_Some (reactRoots p !! r) →
  is_Some (reactRoots (snd (run_callbacks cbs p)) !! r).
Proof.
  revert p. induction cbs as [|cb cbs IH]; intros p Hr; [done|].
  rewrite run_callbacks_cons. apply IH.
  destruct cb as [r'|tag]; simpl; [|done].
  unfold root_unmount. destruct (reactRoots p !! r') eqn:E; [|done]. simpl.
  destruct (decide (r' = r)) as [->|Hne].
  - rewrite lookup_insert_eq. eauto.
  - by rewrite lookup_insert_ne.
Qed.

Lemma step_keeps_existing r s p :
  (r < next_root p)%nat →
  is_Some (reactRoots p !! r) → is_Some (reactRoots (step' s p) !! r).
Proof.
  intros Hlt Hr. destruct s as [c name|c d node o|c name tag]; simpl.
  - unfold emit. by apply run_callbacks_keeps_root.
  - destruct (mount_page createRoot_throws render_throws c d node o p)
      as [->|(_ & _ & Hother)]; [done|].
    rewrite Hother; [done|lia].
  - done.
Qed.

Lemma step_next_root s p : (next_root p ≤ next_root (step' s p))%nat.
Proof.
  destruct s as [c name|c d node o|c name tag]; simpl.
  - destruct (emit_listeners c name p) as [_ ->]. lia.
  - destruct (mount_page createRoot_throws render_throws c d node o p)
      as [->|(_ & -> & _)]; lia.
  - lia.
Qed.

Lemma step_page_wf s p : page_wf p → page_wf (step' s p).
Proof.
  intros Hwf. destruct s as [c name|c d node o|c name tag]; simpl.
  - destruct (emit_listeners c name p) as [Hl Hn].
    unfold page_wf. rewrite Hl, Hn. apply Hwf.
  - destruct (mount_page createRoot_throws render_throws c d node o p)
      as [->|(Hl & Hn & _)]; [done|].
    unfold page_wf. rewrite Hl, Hn.
    intros c' name r [Hold|Hnew%list_elem_of_singleton]%elem_of_app.
    + apply Hwf in Hold. lia.
    + injection Hnew as _ _ ->. lia.
  - unfold page_wf; simpl.
    intros c' name' r [Hold|Hnew%list_elem_of_singleton]%elem_of_app;
      [by apply Hwf in Hold|done].
Qed.

Lemma step_page_inv s p : page_inv p → page_inv (step' s p).
Proof.
  intros [Hwf Hroots]. split; [by apply step_page_wf|].
  intros r Hr.
  destruct (decide (r < next_root p)%nat) as [Hold|Hnew].
  - destruct (Hroots r Hold) as [Hex [c Hg]]. split.
    + by apply step_keeps_existing.
    + exists c. by apply step_guarded.
  - destruct s as [c name|c d node o|c name tag]; simpl in *.
    + destruct (emit_listeners c name p) as [_ Hn]. lia.
    + pose proof (mount_outcome createRoot_throws render_throws c d node o p) as Hout.
      destruct (createRoot_throws d o) eqn:Hcreate.
      * rewrite Hout in Hr. simpl in Hr. lia.
      * destruct (mount_guarded createRoot_throws render_throws c d node o p
                    Hwf Hcreate) as [Hg Hm].
        assert (r = next_root p) as ->.
        { rewrite Hout in Hr. cbv zeta in Hr.
          destruct (render_throws node); simpl in Hr; lia. }
        split; [|by exists c].
        unfold is_mounted in Hm.
        destruct (reactRoots _ !! next_root p); [eauto|done].
    + lia.
Qed.

Lemma page_inv_empty : page_inv empty_page.
Proof.
  split.
  - intros c name r H. by apply not_elem_of_nil in H.
  - intros r Hr. simpl in Hr. lia.
Qed.

Lemma run_page_inv steps p : page_inv p → page_inv (steps_run' steps p).
Proof.
  revert p. induction steps as [|s steps IH]; intros p Hp; [done|].
  simpl. by apply IH, step_page_inv.
Qed.

(** X10.  On every page a history of events, adapter calls and other
    subscriptions leads to, each root the adapter has made is still on the
    page and its unmount callback is registered, on the destroy event of
    one host component and nowhere else; and no callback names a root that
    was never made. *)
Theorem roots_stay_guarded steps :
  let p := steps_run' steps empty_page in
  (∀ c name r, (c, name, UnmountRoot r) ∈ componentListeners p →
               name = "destroy" ∧ (r < next_root p)%nat) ∧
  ∀ r, (r < next_root p)%nat →
       is_Some (reactRoots p !! r) ∧
       ∃ c, (c, "destroy", UnmountRoot r) ∈ componentListeners p ∧
            ∀ c' name, (c', name, UnmountRoot r) ∈ componentListeners p →
                       c' = c ∧ name = "destroy".
Proof.
  cbv zeta. destruct (run_page_inv steps empty_page page_inv_empty) as [Hwf Hroots].
  split.
  - intros c name r Hin. pose proof (Hwf c name r Hin) as Hlt.
    split; [|done].
    destruct (Hroots r Hlt) as [_ [c0 (_ & Honly & _)]].
    by destruct (Honly c name Hin).
  - intros r Hr. destruct (Hroots r Hr) as [Hex [c (Hin & Honly & _)]].
    split; [done|]. by exists c.
Qed.

(** X11.  After any history, the destroy event of a host component
    unmounts every root that was mounted on that component through the
    adapter, however many there are, and leaves every root mounted on
    another component exactly as it was. *)
Theorem destroy_unmounts_own_roots steps c c' r :
  let p := steps_run' steps empty_page in
  (c', "destroy", UnmountRoot r) ∈ componentListeners p →
  let p' := snd (emit c "destroy" p) in
  if decide (c' = c) then root_is_unmounted p' r
  else reactRoots p' !! r = reactRoots p !! r.
Proof.
  cbv zeta. intros Hin.
  destruct (run_page_inv steps empty_page page_inv_empty) as [Hwf Hroots].
  set (p := steps_run' steps empty_page) in *.
  pose proof (Hwf _ _ _ Hin) as Hlt.
  destruct (Hroots r Hlt) as [Hex [c0 (_ & Honly & _)]].
  unfold emit. destruct (decide (c' = c)) as [->|Hne].
  - apply run_callbacks_unmounts; [|done]. by apply elem_of_callbacks_for.
  - apply run_callbacks_other. rewrite elem_of_callbacks_for. intros Hc.
    destruct (Honly c' "destroy" Hin) as [-> _].
    destruct (Honly c "destroy" Hc) as [-> _]. done.
Qed.

(** X12.  What a call of the adapter leaves alone.  When [createRoot]
    throws, the call throws that error and the page is as before: no root,
    no callback.  Otherwise the call makes one root, appends one callback
    (for the destroy event of the host component) after the callbacks that
    were there, and touches no other root. *)
Theorem adapter_call_frame c d node o p :
  let call := renderReactComponent createRoot_throws render_throws c d node o in
  let p' := snd (call p) in
  if createRoot_throws d o
  then call p = (Throw "createRoot", p)
  else
    componentListeners p' =
      componentListeners p ++ [(c, "destroy", UnmountRoot (next_root p))] ∧
    next_root p' = S (next_root p) ∧
    is_Some (reactRoots p' !! next_root p) ∧
    ∀ r, r ≠ next_root p → reactRoots p' !! r = reactRoots p !! r.
Proof.
  cbv zeta. rewrite mount_outcome.
  destruct (createRoot_throws d o); [done|]. cbv zeta.
  destruct (render_throws node); simpl; repeat split;
    rewrite ?lookup_insert_eq; eauto;
    intros r Hr; by rewrite ?lookup_insert_ne by done.
Qed.

End MountAdapterHistories.

Lemma roots_stay_guarded_witness :
  is_Some (reactRoots (page_run (λ _ _, false) (λ _, false)
                         two_roots_history empty_page) !! 1%nat).
Proof.
  pose proof (roots_stay_guarded (λ _ _, false) (λ _, false) two_roots_history)
    as [_ H].
  exact (proj1 (H 1%nat (le_n 2))).
Defined.

Lemma destroy_unmounts_own_roots_witness :
  root_is_unmounted
    (snd (emit 0 "destroy"
            (page_run (λ _ _, false) (λ _, false) two_roots_history empty_page)))
    0 ∧
  reactRoots
    (snd (emit 0 "destroy"
            (page_run (λ _ _, false) (λ _, false) two_roots_history empty_page)))
    !! 1%nat
  = reactRoots (page_run (λ _ _, false) (λ _, false) two_roots_history empty_page)
    !! 1%nat.
Proof.
  split.
  - apply (destroy_unmounts_own_roots (λ _ _, false) (λ _, false)
             two_roots_history 0 0 0).
    vm_compute. apply list_elem_of_here.
  - apply (destroy_unmounts_own_roots (λ _ _, false) (λ _, false)
             two_roots_history 0 1 1).
    vm_compute. apply list_elem_of_further, list_elem_of_further, list_elem_of_here.
Defined.
